(** * Scripted TCP connections: package [tcp] of packet-go

    The package keeps two [Peer] objects per connection, mutates them in
    place through pointers, and asks the packet-layering library for one
    serialized frame per protocol event.  The development below embeds
    [NewPeer], [NewConn], [createPacket], [Connect], [Send] and
    [Disconnect] over an explicit store of heap objects, so that two
    pointers to the same [Peer] alias here exactly as they do in Go.

    - Data: [Peer], [Conn] and the layer descriptors as records; nil
      and empty slices kept apart; [uint32] arithmetic with its
      wrap-around written out.
    - Effects: a call maps a store to an outcome: it returns (with the
      frames it synthesized), or the process exits through
      [log.Fatal], or it panics on a nil pointer.
    - Libraries: [gopacket.SerializeLayers], [net.ParseMAC] and
      [net.ParseIP] are parameters (type classes); a model of the two
      parsers and a stand-in serializer instantiate them on concrete
      inputs.
    - Properties: outcome equations for the elementary statements,
      evaluation of whole calls, then the theorems on the handshake,
      the data exchange, the close, acknowledgments, options, the
      packet list and the scripted exchange.
    - Further: whole scripts (frames, frame conditions, sequence
      numbers, panics and exits), [connect] of the first revision,
      [htons] of package [rawsocket], and the [Listener] of package
      [pcap]. *)

From stdpp Require Import gmap strings list fin_maps.
From Stdlib Require Import ZArith.

Local Open Scope Z_scope.

(** ** Machine data *)

(** A byte is kept as its value in [0, 256). *)
Abbreviation byte := Z (only parsing).

(** Go slices: the nil slice is [None], a slice with contents [l]
    (possibly empty) is [Some l]. *)
Definition slice (A : Type) : Type := option (list A).

(** [len(s)]; the length of the nil slice is 0. *)
Definition len {A : Type} (s : slice A) : Z :=
  match s with
  | None => 0
  | Some l => Z.of_nat (length l)
  end.

(** Conversion to, and arithmetic on, [uint32]. *)
Definition uint32 (z : Z) : Z := z mod 2 ^ 32.

(** Heap addresses are positive numbers; a pointer is nil ([None]) or
    an address. *)
Abbreviation ptr := (option positive) (only parsing).

(** ** gopacket layer descriptors

    Only the fields the package assigns are kept; every other field of
    the library's structs keeps its zero value in the source. *)

Module TCPOption.
Record t : Type := mk
  { OptionType : Z;
    OptionLength : Z;
    OptionData : slice byte }.
End TCPOption.

Module Ethernet.
Record t : Type := mk
  { SrcMAC : slice byte;
    DstMAC : slice byte;
    EthernetType : Z }.
End Ethernet.

Module IPv4.
Record t : Type := mk
  { Version : Z;
    Flags : Z;
    Id : Z;
    TTL : Z;
    Protocol : Z;
    SrcIP : slice byte;
    DstIP : slice byte }.
End IPv4.

Module TCP.
Record t : Type := mk
  { SrcPort : Z;
    DstPort : Z;
    SYN : bool;
    ACK : bool;
    FIN : bool;
    Seq : Z;
    Ack : Z;
    Window : Z;
    Options : slice TCPOption.t }.

(** [tcp.Options = v] *)
Definition with_Options (v : slice TCPOption.t) (h : t) : t :=
  mk (SrcPort h) (DstPort h) (SYN h) (ACK h) (FIN h) (Seq h) (Ack h)
     (Window h) v.
End TCP.

(** Constants of gopacket/layers. *)
Definition EthernetTypeIPv4 : Z := 0x0800.
Definition IPv4DontFragment : Z := 2.
Definition IPProtocolTCP : Z := 6.

(** ** Peer and Conn *)

Module Flags.
Record t : Type := mk
  { SYN : bool;
    ACK : bool;
    FIN : bool }.
End Flags.

Module Peer.
Record t : Type := mk
  { MAC : slice byte;
    IP : slice byte;
    Port : Z;
    Seq : Z;
    Ack : Z;
    Flags : Flags.t;
    Options : slice TCPOption.t }.

Definition SYN (p : t) : bool := Flags.SYN (Flags p).
Definition ACK (p : t) : bool := Flags.ACK (Flags p).
Definition FIN (p : t) : bool := Flags.FIN (Flags p).

(** Field assignments [p.F = v]. *)
Definition with_Seq (v : Z) (p : t) : t :=
  mk (MAC p) (IP p) (Port p) v (Ack p) (Flags p) (Options p).
Definition with_Ack (v : Z) (p : t) : t :=
  mk (MAC p) (IP p) (Port p) (Seq p) v (Flags p) (Options p).
Definition with_Options (v : slice TCPOption.t) (p : t) : t :=
  mk (MAC p) (IP p) (Port p) (Seq p) (Ack p) (Flags p) v.
Definition with_SYN (v : bool) (p : t) : t :=
  mk (MAC p) (IP p) (Port p) (Seq p) (Ack p)
     (Flags.mk v (ACK p) (FIN p)) (Options p).
Definition with_ACK (v : bool) (p : t) : t :=
  mk (MAC p) (IP p) (Port p) (Seq p) (Ack p)
     (Flags.mk (SYN p) v (FIN p)) (Options p).
Definition with_FIN (v : bool) (p : t) : t :=
  mk (MAC p) (IP p) (Port p) (Seq p) (Ack p)
     (Flags.mk (SYN p) (ACK p) v) (Options p).
End Peer.

(** The anonymous struct [Conn.Options]. *)
Module PhaseOptions.
Record t : Type := mk
  { SYN : slice TCPOption.t;
    SYNACK : slice TCPOption.t;
    ACK : slice TCPOption.t }.
End PhaseOptions.

Module Conn.
(** [Packets] is a slice of byte slices; the code only takes its
    length and its elements, so it is kept as the list of its
    elements (nil and empty coincide), each element as the list of
    its bytes. *)
Record t : Type := mk
  { Client : ptr;
    Server : ptr;
    Options : PhaseOptions.t;
    Packets : list (list byte) }.

Definition with_Packets (v : list (list byte)) (c : t) : t :=
  mk (Client c) (Server c) (Options c) v.
End Conn.

(** ** The store and the outcome of a call *)

(** All [Peer] and [Conn] objects reachable through pointers. *)
Record world : Type := World
  { peers : gmap positive Peer.t;
    conns : gmap positive Conn.t }.

(** One call of the serializer that produced a frame: who sent to whom,
    the store at that moment, the layers handed to the library and the
    bytes it gave back.  The packets of a connection hold the bytes
    only; these records are what the properties of frames (flags,
    numbers, options, the peers at that moment) are stated on. *)
Record Synthesis : Type := Synth
  { by_sender : positive;
    to_receiver : positive;
    in_world : world;
    eth_layer : Ethernet.t;
    ip_layer : IPv4.t;
    tcp_layer : TCP.t;
    payload_layer : slice byte;
    wire : list byte }.

(** A call returns a value in a new store together with the frames it
    had synthesized, or the process is terminated by [log.Fatal], or the
    goroutine panics on a nil dereference. *)
Inductive outcome (A : Type) : Type :=
| Returns (a : A) (w : world) (out : list Synthesis)
| Exits
| Panics.

Arguments Returns {A} a w out.
Arguments Exits {A}.
Arguments Panics {A}.

Definition M (A : Type) : Type := world → outcome A.

#[global] Instance M_ret : MRet M := λ A a w, Returns a w [].

#[global] Instance M_bind : MBind M := λ A B f m w,
  match m w with
  | Returns a w1 out1 =>
      match f a w1 with
      | Returns b w2 out2 => Returns b w2 (out1 ++ out2)
      | Exits => Exits
      | Panics => Panics
      end
  | Exits => Exits
  | Panics => Panics
  end.

(** [log.Fatal(err)] *)
Definition log_Fatal {A : Type} : M A := λ _, Exits.

(** [*p] for a pointer to a Peer. *)
Definition load (p : ptr) : M Peer.t := λ w,
  match p with
  | None => Panics
  | Some l =>
      match peers w !! l with
      | Some v => Returns v w []
      | None => Panics
      end
  end.

(** [*p = v] for a pointer to a Peer. *)
Definition store (p : ptr) (v : Peer.t) : M unit := λ w,
  match p with
  | None => Panics
  | Some l =>
      match peers w !! l with
      | Some _ => Returns tt (World (<[l:=v]> (peers w)) (conns w)) []
      | None => Panics
      end
  end.

(** [*c] and [*c = v] for a pointer to a Conn. *)
Definition load_conn (c : ptr) : M Conn.t := λ w,
  match c with
  | None => Panics
  | Some l =>
      match conns w !! l with
      | Some v => Returns v w []
      | None => Panics
      end
  end.

Definition store_conn (c : ptr) (v : Conn.t) : M unit := λ w,
  match c with
  | None => Panics
  | Some l =>
      match conns w !! l with
      | Some _ => Returns tt (World (peers w) (<[l:=v]> (conns w))) []
      | None => Panics
      end
  end.

(** [&v] for a fresh Peer, and for a fresh Conn. *)
Definition new_peer (v : Peer.t) : M ptr := λ w,
  let l := fresh (dom (peers w)) in
  Returns (Some l) (World (<[l:=v]> (peers w)) (conns w)) [].

Definition new_conn (v : Conn.t) : M ptr := λ w,
  let l := fresh (dom (conns w)) in
  Returns (Some l) (World (peers w) (<[l:=v]> (conns w))) [].

(** The store as it is now. *)
Definition snapshot : M world := λ w, Returns w w [].

(** Record one synthesized frame. *)
Definition emit (e : Synthesis) : M unit := λ w, Returns tt w [e].

(** [p.F] and [p.F = v] where the pointer [p] is itself the result of
    an expression such as [c.Client]. *)
Definition getf {A : Type} (p : M ptr) (field : Peer.t → A) : M A :=
  l ← p; v ← load l; mret (field v).

Definition setf {A : Type} (p : M ptr) (assign : A → Peer.t → Peer.t)
    (a : A) : M unit :=
  l ← p; v ← load l; store l (assign a v).

(** A pointer held in a local variable. *)
Definition ref (p : ptr) : M ptr := mret p.

(** [c.Client], [c.Server], [c.Options], [c.Packets]. *)
Definition Client (c : ptr) : M ptr := v ← load_conn c; mret (Conn.Client v).
Definition Server (c : ptr) : M ptr := v ← load_conn c; mret (Conn.Server v).
Definition Options (c : ptr) : M PhaseOptions.t :=
  v ← load_conn c; mret (Conn.Options v).
Definition Packets (c : ptr) : M (list (list byte)) :=
  v ← load_conn c; mret (Conn.Packets v).

(** ** The libraries the package calls

    [gopacket.SerializeLayers] with the options [FixLengths] and
    [ComputeChecksums] is used as a black box: from the layers it is
    given it returns the bytes of a frame, or an error ([None]).  The
    last argument is the payload layer, [None] when the call passes no
    payload layer. *)
Class PacketLibrary : Type :=
  SerializeLayers :
    Ethernet.t → IPv4.t → TCP.t → slice byte → option (list byte).

(** [net.ParseMAC] returns a hardware address or an error (its
    message); [net.ParseIP] returns an address, or nil when the text
    is not an IP address. *)
Class NetLibrary : Type := NetLib
  { ParseMAC : string → list byte + string;
    ParseIP : string → slice byte }.

(** ** NewPeer, NewConn *)

Section Constructors.
Context `{!NetLibrary}.

Definition NewPeer (mac ip : string) (port isn : Z) : M ptr :=
  (* parse mac address *)
  match ParseMAC mac with
  | inr err => log_Fatal
  | inl macAddr =>
      (* parse ip address *)
      let ipAddr := ParseIP ip in
      (* create and return peer *)
      new_peer
        (Peer.mk (Some macAddr) ipAddr port isn 0
                 (Flags.mk false false false) None)
  end.
End Constructors.

Definition NewConn (client server : ptr) : M ptr :=
  new_conn (Conn.mk client server (PhaseOptions.mk None None None) []).

(** ** createPacket *)

(** The loop [for i, p := range src { dst[i] = p }], started at index
    [i]. *)
Fixpoint copy_range (i : nat) (src dst : list (list byte)) : list (list byte) :=
  match src with
  | [] => dst
  | p :: src' => copy_range (S i) src' (<[i:=p]> dst)
  end.

Section Lifecycle.
Context `{!PacketLibrary}.

Definition createPacket (c sender receiver : ptr) (payload : slice byte)
    : M unit :=
  s ← load sender;
  r ← load receiver;
  (* create ethernet header *)
  let eth := Ethernet.mk (Peer.MAC s) (Peer.MAC r) EthernetTypeIPv4 in
  (* create ip header *)
  let ip :=
    IPv4.mk 4 IPv4DontFragment 1 64 IPProtocolTCP (Peer.IP s) (Peer.IP r) in
  (* create tcp header *)
  let tcp :=
    TCP.mk (Peer.Port s) (Peer.Port r) (Peer.SYN s) (Peer.ACK s)
           (Peer.FIN s) (Peer.Seq s) (Peer.Ack s) 64000 None in
  (* tcp.SetNetworkLayerForChecksum(&ip): the library is given both
   headers; the error this call may return is dropped by the source *)
(* add tcp options if present *)
  let tcp :=
    match Peer.Options s with
    | Some _ => TCP.with_Options (Peer.Options s) tcp
    | None => tcp
    end in
  (* serialize packet to buffer *)
  let res :=
    match payload with
    | Some _ => SerializeLayers eth ip tcp payload   (* with payload *)
    | None => SerializeLayers eth ip tcp None        (* without payload *)
    end in
  match res with
  | None => log_Fatal
  | Some buf =>
      (* the frame is recorded, with the store as it is now; both
         pointers were dereferenced above, so they are addresses *)
      now ← snapshot;
      match sender, receiver with
      | Some ls, Some lr =>
          emit (Synth ls lr now eth ip tcp payload buf)
      | _, _ => mret tt
      end;;
      (* append packet to the list of all packets *)
      old ← Packets c;
      let packets := replicate (length old + 1) [] in
      let packets := copy_range 0 old packets in
      let packets := <[(length packets - 1)%nat:=buf]> packets in
      v ← load_conn c;
      store_conn c (Conn.with_Packets packets v)
  end.

(** Connect creates the packets of the three way handshake. *)
Definition Connect (c : ptr) : M unit :=
  (* create fake SYN packet *)
  setf (Client c) Peer.with_SYN true;;
  setf (Client c) Peer.with_ACK false;;
  setf (Client c) Peer.with_FIN false;;
  setf (Client c) Peer.with_Ack (uint32 0);;
  o ← Options c; setf (Client c) Peer.with_Options (PhaseOptions.SYN o);;
  client ← Client c; server ← Server c; createPacket c client server None;;
  n ← getf (Client c) Peer.Seq; setf (Client c) Peer.with_Seq (uint32 (n + 1));;
  (* create fake SYN, ACK packet *)
  setf (Server c) Peer.with_SYN true;;
  setf (Server c) Peer.with_ACK true;;
  setf (Server c) Peer.with_FIN false;;
  n ← getf (Client c) Peer.Seq; setf (Server c) Peer.with_Ack n;;
  o ← Options c; setf (Server c) Peer.with_Options (PhaseOptions.SYNACK o);;
  server ← Server c; client ← Client c; createPacket c server client None;;
  n ← getf (Server c) Peer.Seq; setf (Server c) Peer.with_Seq (uint32 (n + 1));;
  (* remove options from client and server *)
  o ← Options c; setf (Client c) Peer.with_Options (PhaseOptions.ACK o);;
  o ← Options c; setf (Server c) Peer.with_Options (PhaseOptions.ACK o);;
  (* create fake ACK packet *)
  setf (Client c) Peer.with_SYN false;;
  setf (Client c) Peer.with_ACK true;;
  setf (Client c) Peer.with_FIN false;;
  n ← getf (Server c) Peer.Seq; setf (Client c) Peer.with_Ack n;;
  client ← Client c; server ← Server c; createPacket c client server None.

(** Send creates packets for the payload sent from sender to receiver
    and its acknowledgment. *)
Definition Send (c sender receiver : ptr) (payload : slice byte) : M unit :=
  (* create fake payload packet *)
  setf (ref sender) Peer.with_SYN false;;
  setf (ref sender) Peer.with_ACK true;;
  setf (ref sender) Peer.with_FIN false;;
  n ← getf (ref receiver) Peer.Seq; setf (ref sender) Peer.with_Ack n;;
  createPacket c sender receiver payload;;
  n ← getf (ref sender) Peer.Seq;
  setf (ref sender) Peer.with_Seq (uint32 (n + uint32 (len payload)));;
  (* create fake ACK packet *)
  setf (ref receiver) Peer.with_SYN false;;
  setf (ref receiver) Peer.with_ACK true;;
  setf (ref receiver) Peer.with_FIN false;;
  n ← getf (ref sender) Peer.Seq; setf (ref receiver) Peer.with_Ack n;;
  createPacket c receiver sender None.

(** Disconnect creates the packets for a client side initiated
    connection termination. *)
Definition Disconnect (c : ptr) : M unit :=
  (* create fake FIN, ACK packet *)
  setf (Client c) Peer.with_SYN false;;
  setf (Client c) Peer.with_ACK true;;
  setf (Client c) Peer.with_FIN true;;
  n ← getf (Server c) Peer.Seq; setf (Client c) Peer.with_Ack n;;
  client ← Client c; server ← Server c; createPacket c client server None;;
  n ← getf (Client c) Peer.Seq; setf (Client c) Peer.with_Seq (uint32 (n + 1));;
  (* create fake FIN, ACK packet *)
  setf (Server c) Peer.with_SYN false;;
  setf (Server c) Peer.with_ACK true;;
  setf (Server c) Peer.with_FIN true;;
  n ← getf (Client c) Peer.Seq; setf (Server c) Peer.with_Ack n;;
  server ← Server c; client ← Client c; createPacket c server client None;;
  n ← getf (Server c) Peer.Seq; setf (Server c) Peer.with_Seq (uint32 (n + 1));;
  (* create fake ACK packet *)
  setf (Client c) Peer.with_SYN false;;
  setf (Client c) Peer.with_ACK true;;
  setf (Client c) Peer.with_FIN false;;
  n ← getf (Server c) Peer.Seq; setf (Client c) Peer.with_Ack n;;
  client ← Client c; server ← Server c; createPacket c client server None.
End Lifecycle.

(** ** A script of lifecycle calls on one connection *)

Inductive call : Type :=
| CallConnect
| CallSend (sender receiver : ptr) (payload : slice byte)
| CallDisconnect.

Section Scripts.
Context `{!PacketLibrary}.

Definition run_call (c : ptr) (k : call) : M unit :=
  match k with
  | CallConnect => Connect c
  | CallSend sender receiver payload => Send c sender receiver payload
  | CallDisconnect => Disconnect c
  end.

Fixpoint run (c : ptr) (script : list call) : M unit :=
  match script with
  | [] => mret tt
  | k :: script' => run_call c k;; run c script'
  end.
End Scripts.

(** ** The text parsers of Go's package [net]

    [ParseMAC], and [ParseIP] for dotted-decimal text, follow the Go
    standard library (version 1.17 or later, which rejects leading
    zeros in a decimal field).  The parser of the IPv6 text forms is
    left as a parameter. *)

Module GoNet.
Definition big : Z := 0xFFFFFF.

(** The bytes of a Go string. *)
Definition bytes (s : string) : list byte :=
  (λ a, Z.of_N (Ascii.N_of_ascii a)) <$> String.list_ascii_of_string s.

(** [s[i]]; the callers below index inside the string. *)
Definition at_ (s : list byte) (i : nat) : Z := default 0 (s !! i).

Definition hexval (ch : Z) : option Z :=
  if (48 <=? ch) && (ch <=? 57) then Some (ch - 48)
  else if (97 <=? ch) && (ch <=? 102) then Some (ch - 97 + 10)
  else if (65 <=? ch) && (ch <=? 70) then Some (ch - 65 + 10)
  else None.

(** [xtoi]: hexadecimal to integer; returns number, characters
    consumed, success. *)
Fixpoint xtoi_from (s : list byte) (n i : Z) : Z * Z * bool :=
  match s with
  | [] => if i =? 0 then (0, i, false) else (n, i, true)
  | ch :: s' =>
      match hexval ch with
      | Some d =>
          let n' := n * 16 + d in
          if big <=? n' then (0, i, false) else xtoi_from s' n' (i + 1)
      | None => if i =? 0 then (0, i, false) else (n, i, true)
      end
  end.

Definition xtoi (s : list byte) : Z * Z * bool := xtoi_from s 0 0.

(** [xtoi2]: the first two hexadecimal digits of [s]; a third
    character, if any, must be [e]. *)
Definition xtoi2 (s : list byte) (e : Z) : Z * bool :=
  if (2 <? Z.of_nat (length s)) && negb (at_ s 2 =? e) then (0, false)
  else
    let '(n, ei, ok) := xtoi (take 2 s) in
    (n mod 256, ok && (ei =? 2)).

(** The loop of the forms 00:00:5e:00:53:01 and 00-00-5e-00-53-01:
    [n] groups, each at the head of [s]. *)
Fixpoint groups3 (n : nat) (s : list byte) (e : Z) : option (list byte) :=
  match n with
  | O => Some []
  | S n' =>
      match xtoi2 s e with
      | (b, true) => hw ← groups3 n' (drop 3 s) e; Some (b :: hw)
      | (_, false) => None
      end
  end.

(** The loop of the form 0000.5e00.5301: [n] groups of two bytes. *)
Fixpoint groups5 (n : nat) (s : list byte) (e : Z) : option (list byte) :=
  match n with
  | O => Some []
  | S n' =>
      match xtoi2 (take 2 s) 0, xtoi2 (drop 2 s) e with
      | (b0, true), (b1, true) =>
          hw ← groups5 n' (drop 5 s) e; Some (b0 :: b1 :: hw)
      | _, _ => None
      end
  end.

Definition invalid : string := "invalid MAC address".

Definition ParseMAC (str : string) : list byte + string :=
  let s := bytes str in
  let l := Z.of_nat (length s) in
  if l <? 14 then inr invalid
  else if (at_ s 2 =? 58) || (at_ s 2 =? 45) then
    if negb ((l + 1) mod 3 =? 0) then inr invalid
    else
      let n := (l + 1) / 3 in
      if negb (n =? 6) && negb (n =? 8) && negb (n =? 20) then inr invalid
      else
        match groups3 (Z.to_nat n) s (at_ s 2) with
        | Some hw => inl hw
        | None => inr invalid
        end
  else if at_ s 4 =? 46 then
    if negb ((l + 1) mod 5 =? 0) then inr invalid
    else
      let n := 2 * (l + 1) / 5 in
      if negb (n =? 6) && negb (n =? 8) && negb (n =? 20) then inr invalid
      else
        match groups5 (Z.to_nat (n / 2)) s (at_ s 4) with
        | Some hw => inl hw
        | None => inr invalid
        end
  else inr invalid.

(** [dtoi]: decimal to integer; returns number, characters consumed,
    success. *)
Fixpoint dtoi_from (s : list byte) (n i : Z) : Z * Z * bool :=
  match s with
  | [] => if i =? 0 then (0, 0, false) else (n, i, true)
  | ch :: s' =>
      if (48 <=? ch) && (ch <=? 57) then
        let n' := n * 10 + (ch - 48) in
        if big <=? n' then (big, i, false) else dtoi_from s' n' (i + 1)
      else if i =? 0 then (0, 0, false) else (n, i, true)
  end.

Definition dtoi (s : list byte) : Z * Z * bool := dtoi_from s 0 0.

(** The loop of [parseIPv4] from field [i] on, [todo] fields left. *)
Fixpoint octets (todo : nat) (i : Z) (s : list byte)
    : option (list byte * list byte) :=
  match todo with
  | O => Some ([], s)
  | S todo' =>
      if Z.of_nat (length s) =? 0 then None
      else
        match (if 0 <? i
               then if at_ s 0 =? 46 then Some (drop 1 s) else None
               else Some s) with
        | None => None
        | Some s =>
            let '(n, c, ok) := dtoi s in
            if negb ok || (0xFF <? n) then None
            else if (1 <? c) && (at_ s 0 =? 48) then None
            else
              '(p, rest) ← octets todo' (i + 1) (drop (Z.to_nat c) s);
              Some (n mod 256 :: p, rest)
        end
  end.

(** [IPv4(a, b, c, d)]: the 16-byte form of an IPv4 address. *)
Definition v4InV6Prefix : list byte := [0; 0; 0; 0; 0; 0; 0; 0; 0; 0; 255; 255].

Definition parseIPv4 (s : list byte) : slice byte :=
  match octets 4 0 s with
  | Some (p, []) => Some (v4InV6Prefix ++ p)
  | _ => None
  end.

Section WithIPv6.
Variable parseIPv6 : list byte → slice byte.

(** The loop of [ParseIP]: the first of '.' and ':' in [rest]
    decides how the whole text [s] is parsed. *)
Fixpoint scan (s rest : list byte) : slice byte :=
  match rest with
  | [] => None
  | ch :: rest' =>
      if ch =? 46 then parseIPv4 s
      else if ch =? 58 then parseIPv6 s
      else scan s rest'
  end.

Definition ParseIP (str : string) : slice byte :=
  scan (bytes str) (bytes str).
End WithIPv6.

(** The library with the IPv6 text forms not recognised. *)
Definition lib : NetLibrary := NetLib ParseMAC (ParseIP (λ _, None)).
End GoNet.

(** ** A stand-in for the packet-layering library

    It refuses what gopacket's Ethernet and IPv4 layers refuse
    (hardware addresses that are not 6 bytes long, addresses without a
    4-byte form) and otherwise lays the three headers out in their
    on-wire order, followed by the payload.  Checksum fields are left
    zero and options are not padded: it only serves to run the
    package on concrete inputs. *)

Module Wire.
(** Big-endian bytes of a 16-bit and of a 32-bit value. *)
Definition be16 (v : Z) : list byte := [(v / 256) mod 256; v mod 256].
Definition be32 (v : Z) : list byte :=
  [(v / 2 ^ 24) mod 256; (v / 2 ^ 16) mod 256; (v / 2 ^ 8) mod 256; v mod 256].

(** [IP.To4] *)
Definition To4 (ip : slice byte) : slice byte :=
  match ip with
  | Some l =>
      if Z.of_nat (length l) =? 4 then Some l
      else if (Z.of_nat (length l) =? 16)
              && bool_decide (take 12 l = GoNet.v4InV6Prefix)
      then Some (drop 12 l)
      else None
  | None => None
  end.

Definition hw6 (mac : slice byte) : option (list byte) :=
  match mac with
  | Some l => if Z.of_nat (length l) =? 6 then Some l else None
  | None => None
  end.

Definition option_bytes (o : TCPOption.t) : list byte :=
  TCPOption.OptionType o :: TCPOption.OptionLength o
    :: default [] (TCPOption.OptionData o).

Definition flag (b : bool) (bit : Z) : Z := if b then bit else 0.

Definition serialize (eth : Ethernet.t) (ip : IPv4.t) (tcp : TCP.t)
    (payload : slice byte) : option (list byte) :=
  dst ← hw6 (Ethernet.DstMAC eth);
  src ← hw6 (Ethernet.SrcMAC eth);
  sip ← To4 (IPv4.SrcIP ip);
  dip ← To4 (IPv4.DstIP ip);
  let opts := concat (option_bytes <$> default [] (TCP.Options tcp)) in
  let data := default [] payload in
  let seg :=
    be16 (TCP.SrcPort tcp) ++ be16 (TCP.DstPort tcp)
      ++ be32 (TCP.Seq tcp) ++ be32 (TCP.Ack tcp)
      ++ [((20 + Z.of_nat (length opts)) / 4) * 16;
          flag (TCP.FIN tcp) 1 + flag (TCP.SYN tcp) 2 + flag (TCP.ACK tcp) 16]
      ++ be16 (TCP.Window tcp) ++ [0; 0; 0; 0] ++ opts ++ data in
  Some (dst ++ src ++ be16 (Ethernet.EthernetType eth)
          ++ [IPv4.Version ip * 16 + 5; 0]
          ++ be16 (20 + Z.of_nat (length seg))
          ++ be16 (IPv4.Id ip) ++ [IPv4.Flags ip * 32; 0]
          ++ [IPv4.TTL ip; IPv4.Protocol ip; 0; 0] ++ sip ++ dip ++ seg).

Definition lib : PacketLibrary := serialize.
End Wire.

(** ** The layers of a frame between two peers

    What [createPacket] hands to the library when the sender's record
    is [s] and the receiver's record is [r]. *)

Definition ethernet_of (s r : Peer.t) : Ethernet.t :=
  Ethernet.mk (Peer.MAC s) (Peer.MAC r) EthernetTypeIPv4.

Definition ipv4_of (s r : Peer.t) : IPv4.t :=
  IPv4.mk 4 IPv4DontFragment 1 64 IPProtocolTCP (Peer.IP s) (Peer.IP r).

Definition tcp_of (s r : Peer.t) : TCP.t :=
  TCP.mk (Peer.Port s) (Peer.Port r) (Peer.SYN s) (Peer.ACK s) (Peer.FIN s)
         (Peer.Seq s) (Peer.Ack s) 64000 (Peer.Options s).

(** The flags of a frame, in the order SYN, ACK, FIN. *)
Definition flags_of (e : Synthesis) : bool * bool * bool :=
  (TCP.SYN (tcp_layer e), TCP.ACK (tcp_layer e), TCP.FIN (tcp_layer e)).

(** The record of the sender, and of the receiver, at the moment the
    frame was synthesized. *)
Definition sender_then (e : Synthesis) : option Peer.t :=
  peers (in_world e) !! by_sender e.
Definition receiver_then (e : Synthesis) : option Peer.t :=
  peers (in_world e) !! to_receiver e.

Section Accepted.
Context `{!PacketLibrary}.

(** The library serializes every TCP segment from [s] to [r]: a
    matter of their hardware and network addresses only. *)
Definition accepted (s r : Peer.t) : Prop :=
  ∀ (tcp : TCP.t) (payload : slice byte),
    is_Some (SerializeLayers (ethernet_of s r) (ipv4_of s r) tcp payload).

(** The frame the library returns for a segment from [s] to [r]. *)
Definition frame_of (s r : Peer.t) (payload : slice byte) : list byte :=
  default []
    (SerializeLayers (ethernet_of s r) (ipv4_of s r) (tcp_of s r) payload).

(** A recorded frame is what the library returned for the layers
    built from the two peers as they were at that moment. *)
Definition genuine (e : Synthesis) : Prop :=
  ∃ s r : Peer.t,
    sender_then e = Some s ∧ receiver_then e = Some r ∧
    eth_layer e = ethernet_of s r ∧ ip_layer e = ipv4_of s r ∧
    tcp_layer e = tcp_of s r ∧
    SerializeLayers (eth_layer e) (ip_layer e) (tcp_layer e)
      (payload_layer e) = Some (wire e).
End Accepted.

(** ** Properties of a recorded frame *)

(** A frame with the ACK flag acknowledges the sequence number its
    receiver had at the moment the frame was synthesized. *)
Definition ack_current (e : Synthesis) : Prop :=
  TCP.ACK (tcp_layer e) = true →
  ∃ r : Peer.t,
    receiver_then e = Some r ∧ TCP.Ack (tcp_layer e) = Peer.Seq r.

(** The packets of connection [c] grew from those of [cn] by exactly
    the frames [out], in the order of [out]; nothing else of the
    connection, and no other connection, changed. *)
Definition appended (c : positive) (cn : Conn.t) (out : list Synthesis)
    (w w' : world) : Prop :=
  conns w' =
    <[c:=Conn.with_Packets (Conn.Packets cn ++ (wire <$> out)) cn]> (conns w).

(** Both peers of connection [c] carry its ACK-phase option set. *)
Definition steady (c : positive) (w : world) : Prop :=
  ∃ (cn : Conn.t) (lc ls : positive) (pc ps : Peer.t),
    conns w !! c = Some cn ∧
    Conn.Client cn = Some lc ∧ Conn.Server cn = Some ls ∧
    peers w !! lc = Some pc ∧ peers w !! ls = Some ps ∧
    Peer.Options pc = PhaseOptions.ACK (Conn.Options cn) ∧
    Peer.Options ps = PhaseOptions.ACK (Conn.Options cn).

(** The frame was sent by a peer of connection [cn]. *)
Definition sent_by_peer_of (cn : Conn.t) (e : Synthesis) : Prop :=
  Conn.Client cn = Some (by_sender e) ∨ Conn.Server cn = Some (by_sender e).

(** Every peer of the store [w] is still there in [w'], with the same
    addresses, port and options. *)
Definition keeps_options (w w' : world) : Prop :=
  ∀ (l : positive) (v : Peer.t),
    peers w !! l = Some v →
    ∃ v' : Peer.t,
      peers w' !! l = Some v' ∧
      Peer.Options v' = Peer.Options v ∧
      Peer.MAC v' = Peer.MAC v ∧ Peer.IP v' = Peer.IP v ∧
      Peer.Port v' = Peer.Port v.

(** The frame carries the options its sender had in the store [w]. *)
Definition options_from (w : world) (e : Synthesis) : Prop :=
  ∃ v : Peer.t,
    peers w !! by_sender e = Some v ∧
    TCP.Options (tcp_layer e) = Peer.Options v.

(** The frame went from peer [from] to peer [to] with the flags [syn],
    [ack], [fin], sequence number [seq] and acknowledgment number
    [ackn]. *)
Definition sent (e : Synthesis) (from to : positive) (syn ack fin : bool)
    (seq ackn : Z) : Prop :=
  by_sender e = from ∧ to_receiver e = to ∧
  flags_of e = (syn, ack, fin) ∧
  TCP.Seq (tcp_layer e) = seq ∧ TCP.Ack (tcp_layer e) = ackn.

(** The peer record [p] has the flags [syn], [ack], [fin], the sequence
    number [seq] and the acknowledgment number [ackn]. *)
Definition in_state (p : Peer.t) (syn ack fin : bool) (seq ackn : Z) : Prop :=
  Peer.SYN p = syn ∧ Peer.ACK p = ack ∧ Peer.FIN p = fin ∧
  Peer.Seq p = seq ∧ Peer.Ack p = ackn.

(** Same hardware address, network address and port. *)
Definition same_identity (p q : Peer.t) : Prop :=
  Peer.MAC p = Peer.MAC q ∧ Peer.IP p = Peer.IP q ∧ Peer.Port p = Peer.Port q.

(** The frame carries the ACK-phase option set of the connection [cn]
    whenever it was sent by one of its two peers. *)
Definition in_ACK_phase (cn : Conn.t) (e : Synthesis) : Prop :=
  sent_by_peer_of cn e →
  TCP.Options (tcp_layer e) = PhaseOptions.ACK (Conn.Options cn).

(** Calls that come after the handshake: Send and Disconnect. *)
Definition after_handshake (k : call) : Prop := k ≠ CallConnect.

(** ** A concrete connection, to run the package on *)

Module Demo.
Definition client : Peer.t :=
  Peer.mk (Some [0; 0; 94; 0; 83; 1])
          (Some [0; 0; 0; 0; 0; 0; 0; 0; 0; 0; 255; 255; 10; 0; 0; 1])
          40000 100 0 (Flags.mk false false false) None.

Definition server : Peer.t :=
  Peer.mk (Some [0; 0; 94; 0; 83; 2])
          (Some [0; 0; 0; 0; 0; 0; 0; 0; 0; 0; 255; 255; 10; 0; 0; 2])
          80 500 0 (Flags.mk false false false) None.

(** Maximum segment size 1460. *)
Definition mss : TCPOption.t := TCPOption.mk 2 4 (Some [5; 180]).

Definition conn : Conn.t :=
  Conn.mk (Some 1%positive) (Some 2%positive)
          (PhaseOptions.mk (Some [mss]) (Some [mss]) None) [].

Definition world0 : world :=
  World (<[2%positive:=server]> (<[1%positive:=client]> ∅))
        (<[1%positive:=conn]> ∅).

(** Connect, Send "abc" from client to server, Disconnect. *)
Definition script : list call :=
  [CallConnect;
   CallSend (Some 1%positive) (Some 2%positive) (Some [97; 98; 99]);
   CallDisconnect].

(** The store of [world0] with the client's options set to the
    empty, non-nil list. *)
Definition world_empty_options : world :=
  World (<[1%positive:=Peer.with_Options (Some []) client]>
           (peers world0))
        (conns world0).

(** The store of [world0] with the client as both ends of the
    connection, as [NewConn(p, p)] builds it. *)
Definition world_one_peer : world :=
  World (peers world0)
        (<[1%positive:=
             Conn.mk (Some 1%positive) (Some 1%positive)
                     (PhaseOptions.mk None None None) []]> ∅).

(** What comes after the handshake in [script]. *)
Definition later : list call :=
  [CallSend (Some 1%positive) (Some 2%positive) (Some [97; 98; 99]);
   CallDisconnect].
End Demo.


(** ** Outcomes of the elementary statements

    [assigned p f w] is the outcome of [p.F = v] when [f] is the
    assignment to field [F], [fetched p field w] that of reading
    [p.F], [conn_at w c] the connection [c] points to. *)

Definition conn_at (w : world) (c : ptr) : option Conn.t :=
  match c with
  | Some l => conns w !! l
  | None => None
  end.

Definition assigned (p : ptr) (f : Peer.t → Peer.t) (w : world)
    : outcome unit :=
  match p with
  | Some l =>
      match peers w !! l with
      | Some v => Returns tt (World (<[l:=f v]> (peers w)) (conns w)) []
      | None => Panics
      end
  | None => Panics
  end.

Definition fetched {A : Type} (p : ptr) (field : Peer.t → A) (w : world)
    : outcome A :=
  match p with
  | Some l =>
      match peers w !! l with
      | Some v => Returns (field v) w []
      | None => Panics
      end
  | None => Panics
  end.

(** ** Observing an outcome *)

(** Whether the call returned, and the frames it synthesized if so. *)
Definition returned {A : Type} (r : outcome A) : bool :=
  match r with
  | Returns _ _ _ => true
  | _ => false
  end.

Definition frames_of {A : Type} (r : outcome A) : list Synthesis :=
  match r with
  | Returns _ _ out => out
  | _ => []
  end.

(** The store a call left behind, [w] itself if it did not return. *)
Definition world_after {A : Type} (r : outcome A) (w : world) : world :=
  match r with
  | Returns _ w' _ => w'
  | _ => w
  end.

(** The sequence and acknowledgment numbers of a frame. *)
Definition numbers_of (e : Synthesis) : Z * Z :=
  (TCP.Seq (tcp_layer e), TCP.Ack (tcp_layer e)).

(** ** The scripted exchange

    Two fresh peers with initial sequence numbers 100 and 500, a fresh
    connection between them, then Connect, Send of the payload "abc"
    from client to server, Disconnect. *)

Section Exchange.
Context `{!NetLibrary} `{!PacketLibrary}.

Definition scripted_exchange (mac1 ip1 : string) (port1 : Z)
    (mac2 ip2 : string) (port2 : Z) : M unit :=
  client ← NewPeer mac1 ip1 port1 100;
  server ← NewPeer mac2 ip2 port2 500;
  c ← NewConn client server;
  Connect c;;
  Send c client server (Some (GoNet.bytes "abc"));;
  Disconnect c.
End Exchange.

(** ** The concrete connection under the stand-in library *)

Module Run.
(** The outcome of the whole script, of Connect alone, and of the
    rest of the script after Connect. *)
Definition whole : outcome unit :=
  @run Wire.lib (Some 1%positive) Demo.script Demo.world0.

Definition handshake : outcome unit :=
  @Connect Wire.lib (Some 1%positive) Demo.world0.

Definition rest : outcome unit :=
  @run Wire.lib (Some 1%positive) Demo.later
    (world_after handshake Demo.world0).

(** One frame from the client with an empty, non-nil options list. *)
Definition one_frame : outcome unit :=
  @createPacket Wire.lib (Some 1%positive) (Some 1%positive)
    (Some 2%positive) None Demo.world_empty_options.
End Run.

(** ** What a script puts on the wire, and what it leaves alone *)

(** Sender, receiver, flags and payload layer of a frame. *)
Definition outline (e : Synthesis) : ptr * ptr * (bool * bool * bool) * slice byte :=
  (Some (by_sender e), Some (to_receiver e), flags_of e, payload_layer e).

(** The outlines of the frames of one call on the connection [cn], as
    the three functions write them down. *)
Definition shape (cn : Conn.t) (k : call)
    : list (ptr * ptr * (bool * bool * bool) * slice byte) :=
  match k with
  | CallConnect =>
      [(Conn.Client cn, Conn.Server cn, (true, false, false), None);
       (Conn.Server cn, Conn.Client cn, (true, true, false), None);
       (Conn.Client cn, Conn.Server cn, (false, true, false), None)]
  | CallSend sender receiver payload =>
      [(sender, receiver, (false, true, false), payload);
       (receiver, sender, (false, true, false), None)]
  | CallDisconnect =>
      [(Conn.Client cn, Conn.Server cn, (false, true, true), None);
       (Conn.Server cn, Conn.Client cn, (false, true, true), None);
       (Conn.Client cn, Conn.Server cn, (false, true, false), None)]
  end.

(** The peers a call works on. *)
Definition involved (cn : Conn.t) (k : call) : list ptr :=
  match k with
  | CallSend sender receiver _ => [sender; receiver]
  | _ => [Conn.Client cn; Conn.Server cn]
  end.

(** The stores [w] and [w'] hold peers at the same addresses, each
    with the hardware address, network address and port it had. *)
Definition preserved (w w' : world) : Prop :=
  ∀ l : positive,
    match peers w !! l, peers w' !! l with
    | Some v, Some v' => same_identity v' v
    | None, None => True
    | _, _ => False
    end.

(** The peers outside [ps] are the same records in [w] and [w']. *)
Definition untouched (ps : list ptr) (w w' : world) : Prop :=
  ∀ l : positive, Some l ∉ ps → peers w' !! l = peers w !! l.

(** The frame goes between the addresses and ports that its sender
    and its receiver have in the store [w], as an IPv4 frame with the
    fixed header fields of [createPacket]. *)
Definition addressed (w : world) (e : Synthesis) : Prop :=
  ∃ s r : Peer.t,
    peers w !! by_sender e = Some s ∧ peers w !! to_receiver e = Some r ∧
    eth_layer e = Ethernet.mk (Peer.MAC s) (Peer.MAC r) 0x0800 ∧
    ip_layer e = IPv4.mk 4 2 1 64 6 (Peer.IP s) (Peer.IP r) ∧
    TCP.SrcPort (tcp_layer e) = Peer.Port s ∧
    TCP.DstPort (tcp_layer e) = Peer.Port r ∧
    TCP.Window (tcp_layer e) = 64000.

(** Values of type uint32. *)
Definition is_uint32 (z : Z) : Prop := 0 ≤ z < 2 ^ 32.

(** Every sequence and acknowledgment number of the store is a uint32
    value, as the types of the fields say. *)
Definition in_range (w : world) : Prop :=
  ∀ (l : positive) (v : Peer.t),
    peers w !! l = Some v → is_uint32 (Peer.Seq v) ∧ is_uint32 (Peer.Ack v).

Definition numbers_in_range (e : Synthesis) : Prop :=
  is_uint32 (TCP.Seq (tcp_layer e)) ∧ is_uint32 (TCP.Ack (tcp_layer e)).

(** The number of frames of a call. *)
Definition weight (k : call) : nat :=
  match k with
  | CallSend _ _ _ => 2
  | _ => 3
  end.

(** The four flag combinations the package writes: SYN, SYN-ACK, ACK,
    FIN-ACK. *)
Definition flag_combinations : list (bool * bool * bool) :=
  [(true, false, false); (true, true, false); (false, true, false);
   (false, true, true)].

(** The peer a pointer points to, if it points to one. *)
Definition peer_at (w : world) (p : ptr) : option Peer.t :=
  match p with
  | Some l => peers w !! l
  | None => None
  end.

(** The connection pointer and both peer pointers of the connection
    point to objects. *)
Definition wired (c : ptr) (w : world) : bool :=
  match conn_at w c with
  | Some cn =>
      match peer_at w (Conn.Client cn), peer_at w (Conn.Server cn) with
      | Some _, Some _ => true
      | _, _ => false
      end
  | None => false
  end.

(** Both pointers handed to Send point to peers. *)
Definition both_peers (sender receiver : ptr) (w : world) : bool :=
  match peer_at w sender, peer_at w receiver with
  | Some _, Some _ => true
  | _, _ => false
  end.

Section Refusals.
Context `{!PacketLibrary}.

(** The library returned an error for some frame without payload
    layer, or for some frame. *)
Definition refused_bare : Prop :=
  ∃ (eth : Ethernet.t) (ip : IPv4.t) (tcp : TCP.t),
    SerializeLayers eth ip tcp None = None.

Definition refused : Prop :=
  ∃ (eth : Ethernet.t) (ip : IPv4.t) (tcp : TCP.t) (payload : slice byte),
    SerializeLayers eth ip tcp payload = None.
End Refusals.


(** ** Counting sequence numbers

    A call of a script between the peers [lc] and [ls]: a Send goes
    from one of the two to the other. *)
Definition between (lc ls : positive) (k : call) : Prop :=
  match k with
  | CallSend sender receiver _ =>
      (sender = Some lc ∧ receiver = Some ls) ∨
      (sender = Some ls ∧ receiver = Some lc)
  | _ => True
  end.

(** By how much a call advances the sequence number of peer [p]: one
    for the SYN and for the FIN, the length of the payload for the
    sender of a Send. *)
Definition advance (p : positive) (k : call) : Z :=
  match k with
  | CallSend sender _ payload =>
      if decide (sender = Some p) then len payload else 0
  | _ => 1
  end.

Definition advances (p : positive) (script : list call) : Z :=
  foldr Z.add 0 (advance p <$> script).

(** * The package before it had TCP options on the connection

    In the first revision of the package the connection has a client,
    a server and the packets, and [connect] assigns no options.  Its
    [createSegment], [send] and [disconnect] have the bodies of
    [createPacket], [Send] and [Disconnect].  A connection of that
    revision is kept in the store with three nil option sets, which
    its code neither reads nor writes. *)

Module Earlier.
Section Lifecycle.
Context `{!PacketLibrary}.

Definition createSegment (c sender receiver : ptr) (payload : slice byte)
    : M unit :=
  createPacket c sender receiver payload.

Definition connect (c : ptr) : M unit :=
  (* create fake SYN packet *)
  setf (Client c) Peer.with_SYN true;;
  setf (Client c) Peer.with_ACK false;;
  setf (Client c) Peer.with_FIN false;;
  setf (Client c) Peer.with_Ack (uint32 0);;
  client ← Client c; server ← Server c;
  createSegment c client server None;;
  n ← getf (Client c) Peer.Seq;
  setf (Client c) Peer.with_Seq (uint32 (n + 1));;
  (* create fake SYN, ACK packet *)
  setf (Server c) Peer.with_SYN true;;
  setf (Server c) Peer.with_ACK true;;
  setf (Server c) Peer.with_FIN false;;
  n ← getf (Client c) Peer.Seq; setf (Server c) Peer.with_Ack n;;
  server ← Server c; client ← Client c;
  createSegment c server client None;;
  n ← getf (Server c) Peer.Seq;
  setf (Server c) Peer.with_Seq (uint32 (n + 1));;
  (* create fake ACK packet *)
  setf (Client c) Peer.with_SYN false;;
  setf (Client c) Peer.with_ACK true;;
  setf (Client c) Peer.with_FIN false;;
  n ← getf (Server c) Peer.Seq; setf (Client c) Peer.with_Ack n;;
  client ← Client c; server ← Server c;
  createSegment c client server None.
End Lifecycle.
End Earlier.

(** The connection [c] has three nil option sets, and neither of its
    peers has options. *)
Definition without_options (c : ptr) (w : world) : Prop :=
  ∀ cn : Conn.t,
    conn_at w c = Some cn →
    Conn.Options cn = PhaseOptions.mk None None None ∧
    (∀ v, peer_at w (Conn.Client cn) = Some v → Peer.Options v = None) ∧
    (∀ v, peer_at w (Conn.Server cn) = Some v → Peer.Options v = None).

(** The connection of [Demo.world0] without its option sets. *)
Definition world_plain : world :=
  World (peers Demo.world0)
        (<[1%positive:=
             Conn.mk (Some 1%positive) (Some 2%positive)
                     (PhaseOptions.mk None None None) []]> ∅).

(** * Package rawsocket: htons

    [encoding/binary] as the Go library defines it: [PutUint16] and
    [Uint16] index the bytes 0 and 1 of the slice (a shorter slice
    panics, [None]). *)

Definition uint16 (z : Z) : Z := z mod 2 ^ 16.

(** The conversion [byte(v)]. *)
Definition to_byte (z : Z) : byte := z mod 2 ^ 8.

Module LittleEndian.
(** [b[0] = byte(v); b[1] = byte(v >> 8)] *)
Definition PutUint16 (b : list byte) (v : Z) : option (list byte) :=
  if decide (2 ≤ length b)%nat
  then Some (<[1%nat:=to_byte (Z.shiftr v 8)]> (<[0%nat:=to_byte v]> b))
  else None.
End LittleEndian.

Module BigEndian.
(** [uint16(b[1]) | uint16(b[0])<<8] *)
Definition Uint16 (b : list byte) : option Z :=
  match b !! 0%nat, b !! 1%nat with
  | Some b0, Some b1 => Some (Z.lor b1 (uint16 (Z.shiftl b0 8)))
  | _, _ => None
  end.
End BigEndian.

(** htons converts a uint16 to network byte order. *)
Definition htons (x : Z) : option Z :=
  let buf := replicate 2 (0 : byte) in
  buf ← LittleEndian.PutUint16 buf x;
  BigEndian.Uint16 buf.

Definition is_uint16 (z : Z) : Prop := 0 ≤ z < 2 ^ 16.

(** * Package pcap: the Listener

    A Listener opens a capture handle on a file or a device
    ([Prepare]) and then dispatches packets and timer ticks to its
    handlers until it is told to stop ([Loop]).

    The capture library is used as a black box, and every call the
    Listener makes to it, to the log and to a handler is recorded in
    a trace. *)

Module Pcap.
(** An open [*pcap.Handle], an [error], a [gopacket.Packet], and a
    non-nil value of one of the handler interfaces. *)
Definition Handle : Type := positive.
Definition error : Type := string.
Definition packet : Type := list byte.
Definition handler : Type := positive.

(** The conversions to [int32] and to [int]. *)
Definition int32 (z : Z) : Z := (z + 2 ^ 31) mod 2 ^ 32 - 2 ^ 31.
Definition int (z : Z) : Z := (z + 2 ^ 63) mod 2 ^ 64 - 2 ^ 63.

Record Listener : Type := mkListener
  { pcapHandle : option Handle;
    PacketHandler : option handler;
    Timer : Z; TimerHandler : option handler;
    File : string; Device : string; Promisc : bool;
    Snaplen : Z; Timeout : Z; Filter : string;
    MaxPkts : Z; MaxTime : Z }.

Definition with_Device (d : string) (l : Listener) : Listener :=
  mkListener (pcapHandle l) (PacketHandler l) (Timer l) (TimerHandler l)
    (File l) d (Promisc l) (Snaplen l) (Timeout l) (Filter l)
    (MaxPkts l) (MaxTime l).

Definition with_pcapHandle (h : option Handle) (l : Listener) : Listener :=
  mkListener h (PacketHandler l) (Timer l) (TimerHandler l)
    (File l) (Device l) (Promisc l) (Snaplen l) (Timeout l) (Filter l)
    (MaxPkts l) (MaxTime l).

(** [gopacket/pcap]: the constant [BlockForever]; the names of the
    interfaces [FindAllDevs] finds, or its error; the handle
    [OpenLive] and [OpenOffline] open, or their error; the error of
    [SetBPFFilter], if any. *)
Class Library : Type :=
  { BlockForever : Z;
    FindAllDevs : list string + error;
    OpenLive : string → Z → bool → Z → Handle + error;
    OpenOffline : string → Handle + error;
    SetBPFFilter : Handle → string → option error }.

(** What [log.Fatal] was given: an error value, possibly nil, or a
    text. *)
Inductive logged : Type :=
| Err (e : option error)
| Msg (s : string).

Inductive event : Type :=
| CallFindAllDevs
| CallOpenLive (device : string) (snaplen : Z) (promisc : bool) (timeout : Z)
| CallOpenOffline (file : string)
| CallSetBPFFilter (h : Handle) (filter : string)
| CallPrintf (format : string)
| CallHandlePacket (to : handler) (p : packet)
| CallHandleTimer (to : handler)
| CallClose (h : Handle).

(** A call returns, or the process is ended by [log.Fatal]. *)
Inductive result (A : Type) : Type :=
| Done (a : A) (trace : list event)
| Fatal (v : logged) (trace : list event).

Arguments Done {A} a trace.
Arguments Fatal {A} v trace.

Definition then_ {A B : Type} (m : result A) (f : A → result B) : result B :=
  match m with
  | Done a t =>
      match f a with
      | Done b t' => Done b (t ++ t')
      | Fatal v t' => Fatal v (t ++ t')
      end
  | Fatal v t => Fatal v t
  end.

Definition trace_of {A : Type} (r : result A) : list event :=
  match r with
  | Done _ t => t
  | Fatal _ t => t
  end.

Definition newline : string := String (Ascii.ascii_of_nat 10) EmptyString.

Section Prepare.
Context `{!Library}.

(** getFirstPcapInterface sets the first network interface found
    by pcap. *)
Definition getFirstPcapInterface (l : Listener) : result Listener :=
  match FindAllDevs with
  | inr err => Fatal (Err (Some err)) [CallFindAllDevs]
  | inl ifs =>
      match ifs with
      | name :: _ => Done (with_Device name l) [CallFindAllDevs]
      | [] => Fatal (Msg "No network interface found") [CallFindAllDevs]
      end
  end.

(** Prepare prepares the pcap listener for the listen function. *)
Definition Prepare (l : Listener) : result Listener :=
  (* open pcap handle *)
  then_
    (if decide (File l = EmptyString) then
       (* set pcap timeout *)
       let timeout :=
         if 0 <? Timeout l then Timeout l else BlockForever in
       (* set interface *)
       then_
         (if decide (Device l = EmptyString)
          then getFirstPcapInterface l
          else Done l [])
         (λ l,
            (* open device *)
            Done (l, OpenLive (Device l) (int32 (Snaplen l)) (Promisc l)
                       timeout,
                  "Listening on interface " +:+ Device l +:+ ":"
                    +:+ newline)
                 [CallOpenLive (Device l) (int32 (Snaplen l)) (Promisc l)
                    timeout])
     else
       (* open pcap file *)
       Done (l, OpenOffline (File l),
             "Reading packets from file " +:+ File l +:+ ":" +:+ newline)
            [CallOpenOffline (File l)])
    (λ '(l, opened, startText),
       match opened with
       | inr pcapErr => Fatal (Err (Some pcapErr)) []
       | inl h =>
           let l := with_pcapHandle (Some h) l in
           then_
             (if decide (Filter l = EmptyString) then Done tt []
              else
                match SetBPFFilter h (Filter l) with
                | Some err =>
                    (* log.Fatal(pcapErr): the error of the open
                       call, which is nil here *)
                    Fatal (Err None) [CallSetBPFFilter h (Filter l)]
                | None => Done tt [CallSetBPFFilter h (Filter l)]
                end)
             (λ _, Done l [CallPrintf startText])
       end).
End Prepare.

(** ** Loop

    What the [select] of the loop receives, one entry per turn: a
    packet (nil once the source is closed), a tick, or the stop
    time.  A nil ticker and the stop channel nobody writes to are
    never ready: their entries are passed over. *)
Inductive ready : Type :=
| Packet (p : option packet)
| Tick
| Stop.

(** How far Loop got on a list of turns: it returned, the process
    ended in [log.Fatal], it panicked on a nil pointer, or it is
    still waiting in the [select]. *)
Inductive status : Type :=
| Returned
| Exited (msg : string)
| Panicked
| Waiting.

Section Loop.
Variable l : Listener.
Variable h : Handle.
Variable to : handler.
Variable ticker stop : bool.

Fixpoint turns (count : Z) (schedule : list ready)
    : list event * status :=
  match schedule with
  | [] => ([], Waiting)
  | Packet None :: _ => ([CallClose h], Returned)
  | Packet (Some p) :: schedule' =>
      let count := int (count + 1) in
      if (0 <? MaxPkts l) && (count =? MaxPkts l)
      then ([CallHandlePacket to p; CallClose h], Returned)
      else
        let '(trace, st) := turns count schedule' in
        (CallHandlePacket to p :: trace, st)
  | Tick :: schedule' =>
      if ticker then
        match TimerHandler l with
        | Some th =>
            let '(trace, st) := turns count schedule' in
            (CallHandleTimer th :: trace, st)
        | None => ([CallClose h], Panicked)
        end
      else turns count schedule'
  | Stop :: schedule' =>
      if stop then ([CallClose h], Returned)
      else turns count schedule'
  end.
End Loop.

(** Loop implements the listen loop for the listen function.  The
    deferred [Close] runs when the function returns, not when
    [log.Fatal] ends the process; the methods of a nil handle
    dereference it. *)
Definition Loop (l : Listener) (schedule : list ready)
    : list event * status :=
  (* make sure there is a packet handler *)
  match PacketHandler l with
  | None => ([], Exited "no packet handler set")
  | Some to =>
      (* Use the handle as a packet source to process all packets *)
      match pcapHandle l with
      | None => ([], Panicked)
      | Some h =>
          (* setup timer and check timer handler *)
          let ticker := 0 <? Timer l in
          if ticker && bool_decide (TimerHandler l = None)
          then ([], Exited "timer used but no timer handler set")
          else
            (* set stop time if configured *)
            let stop := 0 <? MaxTime l in
            (* handle packets and timer events *)
            turns l h to ticker stop 0 schedule
      end
  end.

(** ** Reading a trace and a list of turns *)

Definition handled (e : event) : option packet :=
  match e with
  | CallHandlePacket _ p => Some p
  | _ => None
  end.

Definition delivered (r : ready) : option packet :=
  match r with
  | Packet p => p
  | _ => None
  end.

Definition is_Close (e : event) : bool :=
  match e with
  | CallClose _ => true
  | _ => false
  end.

Definition is_int (z : Z) : Prop := - 2 ^ 63 ≤ z < 2 ^ 63.

(** A library with one interface, and a listener on a file and one
    on the default device. *)
Definition demo_library : Library :=
  {| BlockForever := -10000000;
     FindAllDevs := inl ["eth0"; "lo"];
     OpenLive := λ device _ _ _, inl 1%positive;
     OpenOffline := λ file, inl 2%positive;
     SetBPFFilter := λ _ filter,
       if decide (filter = "tcp") then None else Some "syntax error" |}.

Definition on_file : Listener :=
  mkListener None (Some 1%positive) 0 None "dump.pcap" "eth1" false
    65536 (-1) "tcp" 2 0.

Definition on_device : Listener :=
  mkListener None (Some 1%positive) 0 None EmptyString EmptyString true
    (2 ^ 32 + 1500) (-1) "not a filter" 2 0.

Definition opened : Listener := with_pcapHandle (Some 2%positive) on_file.

Definition unlimited : Listener :=
  mkListener (Some 2%positive) (Some 1%positive) 0 None "dump.pcap"
    EmptyString false 65536 0 EmptyString 0 0.

Definition three_packets : list ready :=
  [Packet (Some [1]); Stop; Packet (Some [2]); Tick; Packet (Some [3])].
End Pcap.

(** * Properties *)

(** ** Evaluating monadic code on a store *)

Lemma exec_bind {A B : Type} (m : M A) (f : A → M B) (w w1 w2 : world)
    (a : A) (b : B) (o1 o2 : list Synthesis) :
  m w = Returns a w1 o1 →
  f a w1 = Returns b w2 o2 →
  (m ≫= f) w = Returns b w2 (o1 ++ o2).
Proof.
  intros Hm Hf. unfold mbind, M_bind. rewrite Hm, Hf. reflexivity.
Qed.

Lemma exec_load (l : positive) (w : world) (v : Peer.t) :
  peers w !! l = Some v → load (Some l) w = Returns v w [].
Proof. intros H. unfold load. rewrite H. reflexivity. Qed.

Lemma exec_store (l : positive) (w : world) (v v' : Peer.t) :
  peers w !! l = Some v →
  store (Some l) v' w = Returns tt (World (<[l:=v']> (peers w)) (conns w)) [].
Proof. intros H. unfold store. rewrite H. reflexivity. Qed.

Lemma exec_load_conn (c : positive) (w : world) (cn : Conn.t) :
  conns w !! c = Some cn → load_conn (Some c) w = Returns cn w [].
Proof. intros H. unfold load_conn. rewrite H. reflexivity. Qed.

Lemma exec_Client (c : positive) (w : world) (cn : Conn.t) :
  conns w !! c = Some cn → Client (Some c) w = Returns (Conn.Client cn) w [].
Proof.
  intros H. unfold Client, mbind, M_bind.
  by rewrite (exec_load_conn _ _ _ H).
Qed.

Lemma exec_Server (c : positive) (w : world) (cn : Conn.t) :
  conns w !! c = Some cn → Server (Some c) w = Returns (Conn.Server cn) w [].
Proof.
  intros H. unfold Server, mbind, M_bind.
  by rewrite (exec_load_conn _ _ _ H).
Qed.

Lemma exec_Options (c : positive) (w : world) (cn : Conn.t) :
  conns w !! c = Some cn → Options (Some c) w = Returns (Conn.Options cn) w [].
Proof.
  intros H. unfold Options, mbind, M_bind.
  by rewrite (exec_load_conn _ _ _ H).
Qed.

Lemma exec_getf {A : Type} (p : M ptr) (field : Peer.t → A) (l : positive)
    (w : world) (v : Peer.t) :
  p w = Returns (Some l) w [] →
  peers w !! l = Some v →
  getf p field w = Returns (field v) w [].
Proof.
  intros Hp Hl. unfold getf, mbind, M_bind.
  by rewrite Hp, (exec_load _ _ _ Hl).
Qed.

Lemma exec_setf {A : Type} (p : M ptr) (assign : A → Peer.t → Peer.t) (a : A)
    (l : positive) (w : world) (v : Peer.t) :
  p w = Returns (Some l) w [] →
  peers w !! l = Some v →
  setf p assign a w =
    Returns tt (World (<[l:=assign a v]> (peers w)) (conns w)) [].
Proof.
  intros Hp Hl. unfold setf, mbind, M_bind.
  by rewrite Hp, (exec_load _ _ _ Hl), (exec_store _ _ _ (assign a v) Hl).
Qed.

(** ** The copy loop of createPacket *)

Lemma copy_range_spec (src pre mid suf : list (list byte)) :
  length mid = length src →
  copy_range (length pre) src (pre ++ mid ++ suf) = pre ++ src ++ suf.
Proof.
  revert pre mid. induction src as [|p src IH]; intros pre mid Hlen.
  - destruct mid; [reflexivity | discriminate].
  - destruct mid as [|q mid]; [discriminate|]. simpl in Hlen.
    cbn [copy_range].
    replace (<[length pre:=p]> (pre ++ (q :: mid) ++ suf))
      with ((pre ++ [p]) ++ mid ++ suf).
    + replace (S (length pre)) with (length (pre ++ [p]))
        by (rewrite length_app; simpl; lia).
      rewrite (IH (pre ++ [p]) mid) by lia.
      by rewrite <- app_assoc.
    + rewrite insert_app_r_alt by lia.
      rewrite Nat.sub_diag. simpl. by rewrite <- app_assoc.
Qed.

Lemma append_by_copy (old : list (list byte)) (buf : list byte) :
  let packets := copy_range 0 old (replicate (length old + 1) []) in
  <[(length packets - 1)%nat:=buf]> packets = old ++ [buf].
Proof.
  intros packets.
  assert (Hcopy : packets = old ++ [[]]).
  { subst packets. rewrite replicate_add.
    apply (copy_range_spec old [] (replicate (length old) []) [[]]).
    apply length_replicate. }
  rewrite Hcopy, length_app. simpl.
  replace (length old + 1 - 1)%nat with (length old + 0)%nat by lia.
  by rewrite insert_app_r.
Qed.

(** ** Outcome equations, without side conditions *)

Lemma run_bind {A B : Type} (m : M A) (f : A → M B) (w : world) :
  (m ≫= f) w =
    match m w with
    | Returns a w1 o1 =>
        match f a w1 with
        | Returns b w2 o2 => Returns b w2 (o1 ++ o2)
        | Exits => Exits
        | Panics => Panics
        end
    | Exits => Exits
    | Panics => Panics
    end.
Proof. reflexivity. Qed.

Lemma run_Client (c : ptr) (w : world) :
  Client c w =
    match conn_at w c with
    | Some cn => Returns (Conn.Client cn) w []
    | None => Panics
    end.
Proof.
  unfold Client, mbind, M_bind, load_conn, conn_at.
  destruct c as [l|]; [|reflexivity]. by destruct (conns w !! l).
Qed.

Lemma run_Server (c : ptr) (w : world) :
  Server c w =
    match conn_at w c with
    | Some cn => Returns (Conn.Server cn) w []
    | None => Panics
    end.
Proof.
  unfold Server, mbind, M_bind, load_conn, conn_at.
  destruct c as [l|]; [|reflexivity]. by destruct (conns w !! l).
Qed.

Lemma run_Options (c : ptr) (w : world) :
  Options c w =
    match conn_at w c with
    | Some cn => Returns (Conn.Options cn) w []
    | None => Panics
    end.
Proof.
  unfold Options, mbind, M_bind, load_conn, conn_at.
  destruct c as [l|]; [|reflexivity]. by destruct (conns w !! l).
Qed.

Lemma run_load_store (l : ptr) (f : Peer.t → Peer.t) (w : world) :
  (load l ≫= λ v, store l (f v)) w = assigned l f w.
Proof.
  unfold mbind, M_bind, load, store, assigned.
  destruct l as [l|]; [|reflexivity].
  destruct (peers w !! l) eqn:E; [|reflexivity]. by rewrite E.
Qed.

Lemma run_load_field {A : Type} (l : ptr) (field : Peer.t → A) (w : world) :
  (load l ≫= λ v, mret (field v)) w = fetched l field w.
Proof.
  unfold mbind, M_bind, mret, M_ret, load, fetched.
  destruct l as [l|]; [|reflexivity].
  by destruct (peers w !! l).
Qed.

Lemma run_setf_ref {A : Type} (p : ptr) (assign : A → Peer.t → Peer.t)
    (a : A) (w : world) :
  setf (ref p) assign a w = assigned p (assign a) w.
Proof.
  unfold setf. rewrite run_bind. unfold ref at 1. cbn [mret M_ret].
  rewrite run_load_store. by destruct (assigned p (assign a) w).
Qed.

Lemma run_getf_ref {A : Type} (p : ptr) (field : Peer.t → A) (w : world) :
  getf (ref p) field w = fetched p field w.
Proof.
  unfold getf. rewrite run_bind. unfold ref at 1. cbn [mret M_ret].
  rewrite run_load_field. by destruct (fetched p field w).
Qed.

Lemma run_setf_Client {A : Type} (c : ptr) (assign : A → Peer.t → Peer.t)
    (a : A) (w : world) :
  setf (Client c) assign a w =
    match conn_at w c with
    | Some cn => assigned (Conn.Client cn) (assign a) w
    | None => Panics
    end.
Proof.
  unfold setf. rewrite run_bind, run_Client.
  destruct (conn_at w c) as [cn|]; [|reflexivity].
  rewrite run_load_store. by destruct (assigned _ (assign a) w).
Qed.

Lemma run_setf_Server {A : Type} (c : ptr) (assign : A → Peer.t → Peer.t)
    (a : A) (w : world) :
  setf (Server c) assign a w =
    match conn_at w c with
    | Some cn => assigned (Conn.Server cn) (assign a) w
    | None => Panics
    end.
Proof.
  unfold setf. rewrite run_bind, run_Server.
  destruct (conn_at w c) as [cn|]; [|reflexivity].
  rewrite run_load_store. by destruct (assigned _ (assign a) w).
Qed.

Lemma run_getf_Client {A : Type} (c : ptr) (field : Peer.t → A) (w : world) :
  getf (Client c) field w =
    match conn_at w c with
    | Some cn => fetched (Conn.Client cn) field w
    | None => Panics
    end.
Proof.
  unfold getf. rewrite run_bind, run_Client.
  destruct (conn_at w c) as [cn|]; [|reflexivity].
  rewrite run_load_field. by destruct (fetched _ field w).
Qed.

Lemma run_getf_Server {A : Type} (c : ptr) (field : Peer.t → A) (w : world) :
  getf (Server c) field w =
    match conn_at w c with
    | Some cn => fetched (Conn.Server cn) field w
    | None => Panics
    end.
Proof.
  unfold getf. rewrite run_bind, run_Server.
  destruct (conn_at w c) as [cn|]; [|reflexivity].
  rewrite run_load_field. by destruct (fetched _ field w).
Qed.

Section Outcomes.
Context `{!PacketLibrary}.

Lemma run_createPacket (c sender receiver : ptr) (payload : slice byte)
    (w : world) :
  createPacket c sender receiver payload w =
    match sender with
    | Some ls =>
      match peers w !! ls with
      | Some s =>
        match receiver with
        | Some lr =>
          match peers w !! lr with
          | Some r =>
            match SerializeLayers (ethernet_of s r) (ipv4_of s r)
                    (tcp_of s r) payload with
            | Some buf =>
              match c with
              | Some lc =>
                match conns w !! lc with
                | Some cn =>
                    Returns tt
                      (World (peers w)
                         (<[lc:=Conn.with_Packets (Conn.Packets cn ++ [buf])
                                  cn]> (conns w)))
                      [Synth ls lr w (ethernet_of s r) (ipv4_of s r)
                         (tcp_of s r) payload buf]
                | None => Panics
                end
              | None => Panics
              end
            | None => Exits
            end
          | None => Panics
          end
        | None => Panics
        end
      | None => Panics
      end
    | None => Panics
    end.
Proof.
  destruct sender as [ls|]; [|reflexivity].
  destruct (peers w !! ls) as [s|] eqn:Hs;
    [|unfold createPacket, mbind, M_bind, load; by rewrite Hs].
  destruct receiver as [lr|];
    [|unfold createPacket, mbind, M_bind, load; by rewrite Hs].
  destruct (peers w !! lr) as [r|] eqn:Hr;
    [|unfold createPacket, mbind, M_bind, load; by rewrite Hs, Hr].
  unfold createPacket, mbind, M_bind.
  rewrite (exec_load _ _ _ Hs), (exec_load _ _ _ Hr).
  assert (Htcp :
    match Peer.Options s with
    | Some _ =>
        TCP.with_Options (Peer.Options s)
          (TCP.mk (Peer.Port s) (Peer.Port r) (Peer.SYN s) (Peer.ACK s)
             (Peer.FIN s) (Peer.Seq s) (Peer.Ack s) 64000 None)
    | None =>
        TCP.mk (Peer.Port s) (Peer.Port r) (Peer.SYN s) (Peer.ACK s)
          (Peer.FIN s) (Peer.Seq s) (Peer.Ack s) 64000 None
    end = tcp_of s r).
  { unfold tcp_of. destruct (Peer.Options s); reflexivity. }
  rewrite Htcp. fold (ethernet_of s r) (ipv4_of s r).
  replace (match payload with
           | Some _ =>
               SerializeLayers (ethernet_of s r) (ipv4_of s r) (tcp_of s r)
                 payload
           | None =>
               SerializeLayers (ethernet_of s r) (ipv4_of s r) (tcp_of s r)
                 None
           end)
    with (SerializeLayers (ethernet_of s r) (ipv4_of s r) (tcp_of s r)
            payload) by (by destruct payload).
  destruct (SerializeLayers (ethernet_of s r) (ipv4_of s r) (tcp_of s r)
              payload) as [buf|]; [|reflexivity].
  unfold snapshot, emit, Packets, load_conn, store_conn, mbind, M_bind.
  destruct c as [lc|]; [|reflexivity].
  destruct (conns w !! lc) as [cn|] eqn:Hc; [|reflexivity].
  cbn [mret M_ret app peers conns]. rewrite !Hc.
  by rewrite append_by_copy.
Qed.
End Outcomes.

Section Evaluation.
Context `{!PacketLibrary}.

Lemma exec_createPacket (c ls lr : positive) (payload : slice byte)
    (w : world) (s r : Peer.t) (cn : Conn.t) (buf : list byte) :
  peers w !! ls = Some s →
  peers w !! lr = Some r →
  conns w !! c = Some cn →
  SerializeLayers (ethernet_of s r) (ipv4_of s r) (tcp_of s r) payload
    = Some buf →
  createPacket (Some c) (Some ls) (Some lr) payload w =
    Returns tt
      (World (peers w)
         (<[c:=Conn.with_Packets (Conn.Packets cn ++ [buf]) cn]> (conns w)))
      [Synth ls lr w (ethernet_of s r) (ipv4_of s r) (tcp_of s r)
         payload buf].
Proof.
  intros Hs Hr Hc Hbuf. by rewrite run_createPacket, Hs, Hr, Hbuf, Hc.
Qed.

Lemma accepted_frame (a b s r : Peer.t) (payload : slice byte) :
  accepted a b →
  Peer.MAC s = Peer.MAC a → Peer.IP s = Peer.IP a →
  Peer.MAC r = Peer.MAC b → Peer.IP r = Peer.IP b →
  SerializeLayers (ethernet_of s r) (ipv4_of s r) (tcp_of s r) payload
    = Some (frame_of s r payload).
Proof.
  intros Hacc Hm1 Hi1 Hm2 Hi2. unfold frame_of.
  destruct (Hacc (tcp_of s r) payload) as [buf Hbuf].
  unfold ethernet_of, ipv4_of in *.
  rewrite Hm1, Hi1, Hm2, Hi2, Hbuf. reflexivity.
Qed.
End Evaluation.

(** Symbolic evaluation of a block of statements on a store. *)
Ltac lookup_now :=
  cbn [peers conns Conn.Client Conn.Server Conn.Options Conn.Packets
       Conn.with_Packets];
  repeat first
    [ rewrite lookup_insert_eq
    | rewrite lookup_insert_ne by congruence ];
  first [ eassumption | reflexivity ].

Ltac pointer_now :=
  first
    [ reflexivity
    | erewrite exec_Client by lookup_now;
      cbn [Conn.Client Conn.with_Packets]; f_equal; eassumption
    | erewrite exec_Server by lookup_now;
      cbn [Conn.Server Conn.with_Packets]; f_equal; eassumption ].

Ltac tidy :=
  cbn [peers conns Conn.Client Conn.Server Conn.Options Conn.Packets
       Conn.with_Packets];
  repeat match goal with
    | H : Conn.Client ?x = Some _ |- context [Conn.Client ?x] => rewrite H
    | H : Conn.Server ?x = Some _ |- context [Conn.Server ?x] => rewrite H
    end;
  rewrite ?insert_insert_eq.

Ltac exec :=
  tidy;
  lazymatch goal with
  | |- (_ ≫= _) _ = _ => eapply exec_bind; [exec | cbv beta; exec]
  | |- setf _ _ _ _ = _ => eapply exec_setf; [pointer_now | lookup_now]
  | |- getf _ _ _ = _ => eapply exec_getf; [pointer_now | lookup_now]
  | |- Client _ _ = _ => eapply exec_Client; lookup_now
  | |- Server _ _ = _ => eapply exec_Server; lookup_now
  | |- Options _ _ = _ => eapply exec_Options; lookup_now
  | |- createPacket _ _ _ _ _ = _ =>
      eapply exec_createPacket;
      [ lookup_now | lookup_now | lookup_now
      | match goal with
        | H : accepted _ _ |- _ =>
            eapply (accepted_frame _ _ _ _ _ H); reflexivity
        end ]
  end.


(** Evaluation of a call whose outcome is not known in advance: every
    lookup, pointer and serializer result the code depends on is
    split into its cases, and the cases are followed to the end. *)
Ltac unstick_lookup l1 l2 :=
  first
    [ rewrite lookup_insert_eq
    | rewrite lookup_insert_ne by congruence
    | destruct (decide (l1 = l2)) as [->|?];
      [ rewrite lookup_insert_eq | rewrite lookup_insert_ne by congruence ] ].

Ltac unstick :=
  match goal with
  | |- context [match ?x with _ => _ end] =>
      lazymatch x with
      | context [match _ with _ => _ end] => fail
      | _ => idtac
      end;
      lazymatch type of x with
      | option _ => idtac
      | _ => fail
      end;
      first
        [ is_var x; destruct x
        | lazymatch x with
          | <[?l1:=_]> _ !! ?l2 => unstick_lookup l1 l2
          end
        | match goal with
          | H : x = _ |- _ => rewrite H
          end
        | destruct x eqn:? ]
  end.

Ltac settle :=
  unfold conn_at, assigned, fetched;
  cbn [peers conns Conn.Client Conn.Server Conn.Options Conn.Packets
       Conn.with_Packets app];
  try (intro; discriminate).

Ltac run_step :=
  rewrite run_bind;
  rewrite ?run_setf_Client, ?run_setf_Server, ?run_setf_ref,
    ?run_getf_Client, ?run_getf_Server, ?run_getf_ref,
    ?run_Client, ?run_Server, ?run_Options, ?run_createPacket;
  settle; repeat (unstick; settle).

Ltac run_last :=
  rewrite ?run_createPacket; settle; repeat (unstick; settle).

Ltac simulate := repeat run_step; run_last.

(** Reduction of record fields of explicit records. *)
Ltac fields :=
  unfold sender_then, receiver_then, flags_of, tcp_of, ethernet_of, ipv4_of;
  cbn [peers conns in_world by_sender to_receiver eth_layer ip_layer
       tcp_layer payload_layer wire sender_then receiver_then flags_of
       tcp_of ethernet_of ipv4_of
       Conn.Client Conn.Server Conn.Options Conn.Packets Conn.with_Packets
       Peer.MAC Peer.IP Peer.Port Peer.Seq Peer.Ack Peer.Flags Peer.Options
       Peer.SYN Peer.ACK Peer.FIN Peer.with_Seq Peer.with_Ack
       Peer.with_Options Peer.with_SYN Peer.with_ACK Peer.with_FIN
       Flags.SYN Flags.ACK Flags.FIN
       TCP.SrcPort TCP.DstPort TCP.SYN TCP.ACK TCP.FIN TCP.Seq TCP.Ack
       TCP.Window TCP.Options
       Ethernet.SrcMAC Ethernet.DstMAC IPv4.SrcIP IPv4.DstIP
       fmap list_fmap app].

(** Lookups in a store built by explicit updates. *)
Ltac find_peer :=
  fields;
  repeat first
    [ rewrite lookup_insert_eq
    | rewrite lookup_insert_ne by congruence ];
  first [ eassumption | reflexivity ].

Section Frames.
Context `{!PacketLibrary}.

Ltac frame_ok :=
  split;
  [ eexists _, _; split; [find_peer|]; split; [find_peer|];
    split; [reflexivity|]; split; [reflexivity|]; split; [reflexivity|];
    cbn [eth_layer ip_layer tcp_layer payload_layer wire]; eassumption
  | unfold ack_current; fields;
    first
      [ intros Hflag; discriminate Hflag
      | intros _; eexists; split; [find_peer | reflexivity] ] ].

Ltac packets_ok :=
  unfold appended; fields; rewrite ?insert_insert_eq;
  rewrite <- ?app_assoc; reflexivity.

Ltac steady_ok :=
  unfold steady; eexists _, _, _, _, _;
  split; [find_peer|];
  split; [fields; eassumption|];
  split; [fields; eassumption|];
  split; [find_peer|];
  split; [find_peer|];
  fields; by split.

Lemma Connect_frames (c : ptr) (w w' : world) (a : unit)
    (out : list Synthesis) :
  Connect c w = Returns a w' out →
  ∃ (l : positive) (cn : Conn.t),
    c = Some l ∧ conns w !! l = Some cn ∧
    Forall (λ e, genuine e ∧ ack_current e) out ∧
    appended l cn out w w' ∧
    steady l w' ∧
    ∃ e1 e2 e3,
      out = [e1; e2; e3] ∧
      TCP.Options (tcp_layer e1) = PhaseOptions.SYN (Conn.Options cn) ∧
      TCP.Options (tcp_layer e2) = PhaseOptions.SYNACK (Conn.Options cn) ∧
      TCP.Options (tcp_layer e3) = PhaseOptions.ACK (Conn.Options cn).
Proof.
  unfold Connect.
  simulate.
  all: intros [= <- <- <-].
  all: eexists _, _; split; [reflexivity|]; split; [eassumption|].
  all: split; [repeat (constructor; [frame_ok|]); constructor|].
  all: split; [packets_ok|].
  all: split; [steady_ok|].
  all: eexists _, _, _; split; [reflexivity|]; fields; by repeat split.
Qed.

Ltac keeps_ok :=
  let l := fresh "l" in
  let v := fresh "v" in
  let Hl := fresh "Hl" in
  intros l v Hl; fields; rewrite ?insert_insert_eq;
  repeat
    (rewrite lookup_insert; case_decide;
     [ first
         [ congruence
         | subst; simplify_eq;
           eexists; split; [reflexivity|]; fields; by repeat split ]
     | ]);
  eexists; split; [exact Hl|]; by repeat split.

Ltac options_ok :=
  unfold options_from; eexists; split; [find_peer | fields; reflexivity].

Lemma Send_frames (c sender receiver : ptr) (payload : slice byte)
    (w w' : world) (a : unit) (out : list Synthesis) :
  Send c sender receiver payload w = Returns a w' out →
  ∃ (l : positive) (cn : Conn.t),
    c = Some l ∧ conns w !! l = Some cn ∧
    Forall (λ e, genuine e ∧ ack_current e) out ∧
    appended l cn out w w' ∧
    keeps_options w w' ∧
    Forall (options_from w) out ∧
    length out = 2%nat.
Proof.
  unfold Send.
  simulate.
  all: intros [= <- <- <-].
  all: eexists _, _; split; [reflexivity|]; split; [eassumption|].
  all: split; [repeat (constructor; [frame_ok|]); constructor|].
  all: split; [packets_ok|].
  all: split; [keeps_ok|].
  all: split; [repeat (constructor; [options_ok|]); constructor|].
  all: reflexivity.
Qed.

Lemma Disconnect_frames (c : ptr) (w w' : world) (a : unit)
    (out : list Synthesis) :
  Disconnect c w = Returns a w' out →
  ∃ (l : positive) (cn : Conn.t),
    c = Some l ∧ conns w !! l = Some cn ∧
    Forall (λ e, genuine e ∧ ack_current e) out ∧
    appended l cn out w w' ∧
    keeps_options w w' ∧
    Forall (options_from w) out ∧
    length out = 3%nat.
Proof.
  unfold Disconnect.
  simulate.
  all: intros [= <- <- <-].
  all: eexists _, _; split; [reflexivity|]; split; [eassumption|].
  all: split; [repeat (constructor; [frame_ok|]); constructor|].
  all: split; [packets_ok|].
  all: split; [keeps_ok|].
  all: split; [repeat (constructor; [options_ok|]); constructor|].
  all: reflexivity.
Qed.
End Frames.

Section Effects.
Context `{!PacketLibrary}.

Lemma accepted_same (a b a' b' : Peer.t) :
  accepted a b → same_identity a' a → same_identity b' b → accepted a' b'.
Proof.
  intros Hacc (Hm1 & Hi1 & _) (Hm2 & Hi2 & _) tcp payload.
  unfold ethernet_of, ipv4_of. rewrite Hm1, Hi1, Hm2, Hi2.
  apply Hacc.
Qed.

Ltac sent_ok := unfold sent; fields; by repeat split.
Ltac state_ok := unfold in_state, same_identity; fields; by repeat split.

(** *** Calls on valid pointers return when the library accepts the
    addresses *)

Lemma Connect_returns (c lc ls : positive) (w : world) (cn : Conn.t)
    (c0 s0 : Peer.t) :
  conns w !! c = Some cn →
  Conn.Client cn = Some lc → Conn.Server cn = Some ls →
  peers w !! lc = Some c0 → peers w !! ls = Some s0 →
  accepted c0 s0 → accepted s0 c0 →
  ∃ w' out, Connect (Some c) w = Returns tt w' out.
Proof.
  intros Hc HC HS Hlc Hls Hcs Hsc.
  destruct (decide (lc = ls)) as [->|Hne]; [simplify_eq|];
    eexists _, _; unfold Connect; exec.
Qed.

Lemma Send_returns (c ls lr : positive) (payload : slice byte) (w : world)
    (cn : Conn.t) (s0 r0 : Peer.t) :
  conns w !! c = Some cn →
  peers w !! ls = Some s0 → peers w !! lr = Some r0 →
  accepted s0 r0 → accepted r0 s0 →
  ∃ w' out, Send (Some c) (Some ls) (Some lr) payload w = Returns tt w' out.
Proof.
  intros Hc Hls Hlr Hsr Hrs.
  destruct (decide (ls = lr)) as [->|Hne]; [simplify_eq|];
    eexists _, _; unfold Send, ref; exec.
Qed.

Lemma Disconnect_returns (c lc ls : positive) (w : world) (cn : Conn.t)
    (c0 s0 : Peer.t) :
  conns w !! c = Some cn →
  Conn.Client cn = Some lc → Conn.Server cn = Some ls →
  peers w !! lc = Some c0 → peers w !! ls = Some s0 →
  accepted c0 s0 → accepted s0 c0 →
  ∃ w' out, Disconnect (Some c) w = Returns tt w' out.
Proof.
  intros Hc HC HS Hlc Hls Hcs Hsc.
  destruct (decide (lc = ls)) as [->|Hne]; [simplify_eq|];
    eexists _, _; unfold Disconnect; exec.
Qed.

(** *** What a call that returned has done, for two distinct peers *)

Lemma Connect_effect (c lc ls : positive) (w w' : world) (a : unit)
    (out : list Synthesis) (cn : Conn.t) (c0 s0 : Peer.t) :
  Connect (Some c) w = Returns a w' out →
  conns w !! c = Some cn →
  Conn.Client cn = Some lc → Conn.Server cn = Some ls →
  lc ≠ ls →
  peers w !! lc = Some c0 → peers w !! ls = Some s0 →
  ∃ e1 e2 e3 c' s',
    out = [e1; e2; e3] ∧
    sent e1 lc ls true false false (Peer.Seq c0) 0 ∧
    sent e2 ls lc true true false (Peer.Seq s0) (uint32 (Peer.Seq c0 + 1)) ∧
    sent e3 lc ls false true false (uint32 (Peer.Seq c0 + 1))
         (uint32 (Peer.Seq s0 + 1)) ∧
    peers w' !! lc = Some c' ∧ peers w' !! ls = Some s' ∧
    in_state c' false true false (uint32 (Peer.Seq c0 + 1))
             (uint32 (Peer.Seq s0 + 1)) ∧
    in_state s' true true false (uint32 (Peer.Seq s0 + 1))
             (uint32 (Peer.Seq c0 + 1)) ∧
    same_identity c' c0 ∧ same_identity s' s0.
Proof.
  intros Hrun Hc HC HS Hne Hlc Hls. revert Hrun. unfold Connect.
  simulate.
  all: intros [= <- <- <-].
  all: eexists _, _, _, _, _; split; [reflexivity|].
  all: split; [sent_ok|]; split; [sent_ok|]; split; [sent_ok|].
  all: split; [find_peer|]; split; [find_peer|].
  all: split; [state_ok|]; split; [state_ok|]; split; state_ok.
Qed.

Lemma uint32_add_r (a b : Z) : uint32 (a + uint32 b) = uint32 (a + b).
Proof. unfold uint32. apply Zplus_mod_idemp_r. Qed.

Lemma Disconnect_effect (c lc ls : positive) (w w' : world) (a : unit)
    (out : list Synthesis) (cn : Conn.t) (c0 s0 : Peer.t) :
  Disconnect (Some c) w = Returns a w' out →
  conns w !! c = Some cn →
  Conn.Client cn = Some lc → Conn.Server cn = Some ls →
  lc ≠ ls →
  peers w !! lc = Some c0 → peers w !! ls = Some s0 →
  ∃ e1 e2 e3 c' s',
    out = [e1; e2; e3] ∧
    sent e1 lc ls false true true (Peer.Seq c0) (Peer.Seq s0) ∧
    sent e2 ls lc false true true (Peer.Seq s0) (uint32 (Peer.Seq c0 + 1)) ∧
    sent e3 lc ls false true false (uint32 (Peer.Seq c0 + 1))
         (uint32 (Peer.Seq s0 + 1)) ∧
    peers w' !! lc = Some c' ∧ peers w' !! ls = Some s' ∧
    in_state c' false true false (uint32 (Peer.Seq c0 + 1))
             (uint32 (Peer.Seq s0 + 1)) ∧
    in_state s' false true true (uint32 (Peer.Seq s0 + 1))
             (uint32 (Peer.Seq c0 + 1)) ∧
    same_identity c' c0 ∧ same_identity s' s0.
Proof.
  intros Hrun Hc HC HS Hne Hlc Hls. revert Hrun. unfold Disconnect.
  simulate.
  all: intros [= <- <- <-].
  all: eexists _, _, _, _, _; split; [reflexivity|].
  all: split; [sent_ok|]; split; [sent_ok|]; split; [sent_ok|].
  all: split; [find_peer|]; split; [find_peer|].
  all: split; [state_ok|]; split; [state_ok|]; split; state_ok.
Qed.

(** *** What Send has done, for any two peers, the same or not *)

Lemma Send_effect (c ls lr : positive) (payload : slice byte)
    (w w' : world) (a : unit) (out : list Synthesis) (cn : Conn.t)
    (s0 r0 : Peer.t) :
  Send (Some c) (Some ls) (Some lr) payload w = Returns a w' out →
  conns w !! c = Some cn →
  peers w !! ls = Some s0 → peers w !! lr = Some r0 →
  ∃ e1 e2 s',
    out = [e1; e2] ∧
    sent e1 ls lr false true false (Peer.Seq s0) (Peer.Seq r0) ∧
    payload_layer e1 = payload ∧
    by_sender e2 = lr ∧ to_receiver e2 = ls ∧
    flags_of e2 = (false, true, false) ∧
    TCP.Ack (tcp_layer e2) = uint32 (Peer.Seq s0 + len payload) ∧
    payload_layer e2 = None ∧
    peers w' !! ls = Some s' ∧
    Peer.Seq s' = uint32 (Peer.Seq s0 + len payload) ∧
    same_identity s' s0 ∧
    (ls ≠ lr →
     TCP.Seq (tcp_layer e2) = Peer.Seq r0 ∧
     ∃ r', peers w' !! lr = Some r' ∧
           in_state r' false true false (Peer.Seq r0)
                    (uint32 (Peer.Seq s0 + len payload)) ∧
           in_state s' false true false
                    (uint32 (Peer.Seq s0 + len payload)) (Peer.Seq r0) ∧
           same_identity r' r0).
Proof.
  intros Hrun Hc Hls Hlr. revert Hrun. unfold Send.
  destruct (decide (ls = lr)) as [->|Hne]; [simplify_eq|].
  all: simulate.
  all: intros [= <- <- <-].
  all: eexists _, _, _; split; [reflexivity|].
  all: split; [sent_ok|].
  all: fields; rewrite ?uint32_add_r.
  all: do 6 (split; [first [reflexivity | find_peer]|]).
  all: split; [find_peer|]; split; [reflexivity|]; split; [state_ok|].
  1: intros Hdiff; congruence.
  intros _. split; [reflexivity|]; eexists; split; [find_peer|].
  split; [state_ok|]; split; state_ok.
Qed.
End Effects.

Section ScriptLemmas.
Context `{!PacketLibrary}.

Lemma run_cons_inv (c : ptr) (k : call) (script : list call)
    (w w' : world) (a : unit) (out : list Synthesis) :
  run c (k :: script) w = Returns a w' out →
  ∃ w1 o1 o2,
    run_call c k w = Returns tt w1 o1 ∧
    run c script w1 = Returns a w' o2 ∧
    out = o1 ++ o2.
Proof.
  cbn [run]. rewrite run_bind.
  destruct (run_call c k w) as [[] w1 o1| |] eqn:Hk; [|discriminate..].
  destruct (run c script w1) as [b w2 o2| |] eqn:Hrest; [|discriminate..].
  intros [= <- <- <-]. by eexists _, _, _.
Qed.

Lemma run_call_frames (c : ptr) (k : call) (w w' : world) (a : unit)
    (out : list Synthesis) :
  run_call c k w = Returns a w' out →
  ∃ (l : positive) (cn : Conn.t),
    c = Some l ∧ conns w !! l = Some cn ∧
    Forall (λ e, genuine e ∧ ack_current e) out ∧
    appended l cn out w w'.
Proof.
  destruct k as [|sender receiver payload|]; cbn [run_call]; intros Hrun.
  - destruct (Connect_frames _ _ _ _ _ Hrun)
      as (l & cn & -> & Hc & Hok & Happ & _).
    by eexists _, _.
  - destruct (Send_frames _ _ _ _ _ _ _ _ Hrun)
      as (l & cn & -> & Hc & Hok & Happ & _).
    by eexists _, _.
  - destruct (Disconnect_frames _ _ _ _ _ Hrun)
      as (l & cn & -> & Hc & Hok & Happ & _).
    by eexists _, _.
Qed.

Lemma with_Packets_id (cn : Conn.t) :
  Conn.with_Packets (Conn.Packets cn) cn = cn.
Proof. by destruct cn. Qed.

Lemma appended_lookup (l : positive) (cn : Conn.t) (out : list Synthesis)
    (w w' : world) :
  appended l cn out w w' →
  conns w' !! l
    = Some (Conn.with_Packets (Conn.Packets cn ++ (wire <$> out)) cn).
Proof. unfold appended. intros ->. apply lookup_insert_eq. Qed.

Lemma appended_nil (l : positive) (cn : Conn.t) (w : world) :
  conns w !! l = Some cn → appended l cn [] w w.
Proof.
  intros Hc. unfold appended. cbn [fmap list_fmap].
  by rewrite app_nil_r, with_Packets_id, insert_id.
Qed.

Lemma appended_trans (l : positive) (cn : Conn.t) (o1 o2 : list Synthesis)
    (w w1 w2 : world) :
  appended l cn o1 w w1 →
  appended l (Conn.with_Packets (Conn.Packets cn ++ (wire <$> o1)) cn) o2
    w1 w2 →
  appended l cn (o1 ++ o2) w w2.
Proof.
  unfold appended. intros -> ->.
  rewrite insert_insert_eq, fmap_app, app_assoc. reflexivity.
Qed.

Lemma run_appended (l : positive) (script : list call) (w w' : world)
    (a : unit) (out : list Synthesis) (cn : Conn.t) :
  run (Some l) script w = Returns a w' out →
  conns w !! l = Some cn →
  appended l cn out w w'.
Proof.
  revert w out cn. induction script as [|k script IH]; intros w out cn.
  - intros [= <- <- <-] Hc. by apply appended_nil.
  - intros Hrun Hc.
    destruct (run_cons_inv _ _ _ _ _ _ _ Hrun)
      as (w1 & o1 & o2 & Hk & Hrest & ->).
    destruct (run_call_frames _ _ _ _ _ _ Hk)
      as (l' & cn' & [= <-] & Hc' & _ & Happ).
    simplify_eq.
    eapply appended_trans; [exact Happ|].
    eapply IH; [exact Hrest|]. eapply appended_lookup, Happ.
Qed.

(** Send and Disconnect keep both peers of the connection in the
    ACK phase, and the frames its peers send carry that option set. *)
Lemma steady_step (l : positive) (k : call) (w w' : world) (a : unit)
    (out : list Synthesis) (cn : Conn.t) :
  after_handshake k →
  steady l w →
  conns w !! l = Some cn →
  run_call (Some l) k w = Returns a w' out →
  steady l w' ∧ Forall (in_ACK_phase cn) out ∧ appended l cn out w w'.
Proof.
  intros Hk (cn0 & lc & ls & pc & ps & Hc0 & HC & HS & Hpc & Hps & Hoc & Hos)
    Hc Hrun.
  assert (cn0 = cn) as -> by congruence.
  assert (Hcore : keeps_options w w' ∧ Forall (options_from w) out ∧
                  appended l cn out w w').
  { destruct k as [|sender receiver payload|]; cbn [run_call] in Hrun.
    - by destruct Hk.
    - destruct (Send_frames _ _ _ _ _ _ _ _ Hrun)
        as (l' & cn' & [= <-] & Hc' & _ & Happ & Hkeep & Hopt & _).
      assert (cn' = cn) as -> by congruence. done.
    - destruct (Disconnect_frames _ _ _ _ _ Hrun)
        as (l' & cn' & [= <-] & Hc' & _ & Happ & Hkeep & Hopt & _).
      assert (cn' = cn) as -> by congruence. done. }
  destruct Hcore as (Hkeep & Hopt & Happ).
  split; [|split; [|exact Happ]].
  - destruct (Hkeep _ _ Hpc) as (pc' & Hpc' & Hoc' & _).
    destruct (Hkeep _ _ Hps) as (ps' & Hps' & Hos' & _).
    eexists _, lc, ls, pc', ps'.
    split; [eapply appended_lookup, Happ|].
    repeat split; try done; cbn [Conn.Options Conn.with_Packets]; congruence.
  - eapply Forall_impl; [exact Hopt|].
    intros e (v & Hv & Hov) [Hby|Hby]; rewrite Hov; simplify_eq; done.
Qed.
End ScriptLemmas.

Section Calls.
Context `{!PacketLibrary}.

(** *** One lemma per call: it returns, and what it has done *)

Lemma Connect_call (c lc ls : positive) (w : world) (cn : Conn.t)
    (c0 s0 : Peer.t) :
  conns w !! c = Some cn →
  Conn.Client cn = Some lc → Conn.Server cn = Some ls →
  lc ≠ ls →
  peers w !! lc = Some c0 → peers w !! ls = Some s0 →
  accepted c0 s0 → accepted s0 c0 →
  ∃ w' e1 e2 e3 c' s',
    Connect (Some c) w = Returns tt w' [e1; e2; e3] ∧
    appended c cn [e1; e2; e3] w w' ∧
    Forall (λ e, genuine e ∧ ack_current e) [e1; e2; e3] ∧
    sent e1 lc ls true false false (Peer.Seq c0) 0 ∧
    sent e2 ls lc true true false (Peer.Seq s0) (uint32 (Peer.Seq c0 + 1)) ∧
    sent e3 lc ls false true false (uint32 (Peer.Seq c0 + 1))
         (uint32 (Peer.Seq s0 + 1)) ∧
    peers w' !! lc = Some c' ∧ peers w' !! ls = Some s' ∧
    in_state c' false true false (uint32 (Peer.Seq c0 + 1))
             (uint32 (Peer.Seq s0 + 1)) ∧
    in_state s' true true false (uint32 (Peer.Seq s0 + 1))
             (uint32 (Peer.Seq c0 + 1)) ∧
    same_identity c' c0 ∧ same_identity s' s0.
Proof.
  intros Hc HC HS Hne Hlc Hls Hcs Hsc.
  destruct (Connect_returns _ _ _ _ _ _ _ Hc HC HS Hlc Hls Hcs Hsc)
    as (w' & out & Hrun).
  destruct (Connect_effect _ _ _ _ _ _ _ _ _ _ Hrun Hc HC HS Hne Hlc Hls)
    as (e1 & e2 & e3 & c' & s' & -> & Hrest).
  destruct (Connect_frames _ _ _ _ _ Hrun)
    as (l & cn' & [= <-] & Hc' & Hok & Happ & _).
  assert (cn' = cn) as -> by congruence.
  by eexists w', e1, e2, e3, c', s'.
Qed.

Lemma Disconnect_call (c lc ls : positive) (w : world) (cn : Conn.t)
    (c0 s0 : Peer.t) :
  conns w !! c = Some cn →
  Conn.Client cn = Some lc → Conn.Server cn = Some ls →
  lc ≠ ls →
  peers w !! lc = Some c0 → peers w !! ls = Some s0 →
  accepted c0 s0 → accepted s0 c0 →
  ∃ w' e1 e2 e3 c' s',
    Disconnect (Some c) w = Returns tt w' [e1; e2; e3] ∧
    appended c cn [e1; e2; e3] w w' ∧
    Forall (λ e, genuine e ∧ ack_current e) [e1; e2; e3] ∧
    sent e1 lc ls false true true (Peer.Seq c0) (Peer.Seq s0) ∧
    sent e2 ls lc false true true (Peer.Seq s0) (uint32 (Peer.Seq c0 + 1)) ∧
    sent e3 lc ls false true false (uint32 (Peer.Seq c0 + 1))
         (uint32 (Peer.Seq s0 + 1)) ∧
    peers w' !! lc = Some c' ∧ peers w' !! ls = Some s' ∧
    in_state c' false true false (uint32 (Peer.Seq c0 + 1))
             (uint32 (Peer.Seq s0 + 1)) ∧
    in_state s' false true true (uint32 (Peer.Seq s0 + 1))
             (uint32 (Peer.Seq c0 + 1)) ∧
    same_identity c' c0 ∧ same_identity s' s0.
Proof.
  intros Hc HC HS Hne Hlc Hls Hcs Hsc.
  destruct (Disconnect_returns _ _ _ _ _ _ _ Hc HC HS Hlc Hls Hcs Hsc)
    as (w' & out & Hrun).
  destruct (Disconnect_effect _ _ _ _ _ _ _ _ _ _ Hrun Hc HC HS Hne Hlc Hls)
    as (e1 & e2 & e3 & c' & s' & -> & Hrest).
  destruct (Disconnect_frames _ _ _ _ _ Hrun)
    as (l & cn' & [= <-] & Hc' & Hok & Happ & _).
  assert (cn' = cn) as -> by congruence.
  by eexists w', e1, e2, e3, c', s'.
Qed.

Lemma Send_call (c ls lr : positive) (payload : slice byte) (w : world)
    (cn : Conn.t) (s0 r0 : Peer.t) :
  conns w !! c = Some cn →
  peers w !! ls = Some s0 → peers w !! lr = Some r0 →
  accepted s0 r0 → accepted r0 s0 →
  ∃ w' e1 e2 s',
    Send (Some c) (Some ls) (Some lr) payload w = Returns tt w' [e1; e2] ∧
    appended c cn [e1; e2] w w' ∧
    Forall (λ e, genuine e ∧ ack_current e) [e1; e2] ∧
    sent e1 ls lr false true false (Peer.Seq s0) (Peer.Seq r0) ∧
    payload_layer e1 = payload ∧
    by_sender e2 = lr ∧ to_receiver e2 = ls ∧
    flags_of e2 = (false, true, false) ∧
    TCP.Ack (tcp_layer e2) = uint32 (Peer.Seq s0 + len payload) ∧
    payload_layer e2 = None ∧
    peers w' !! ls = Some s' ∧
    Peer.Seq s' = uint32 (Peer.Seq s0 + len payload) ∧
    same_identity s' s0 ∧
    (ls ≠ lr →
     TCP.Seq (tcp_layer e2) = Peer.Seq r0 ∧
     ∃ r', peers w' !! lr = Some r' ∧
           in_state r' false true false (Peer.Seq r0)
                    (uint32 (Peer.Seq s0 + len payload)) ∧
           in_state s' false true false
                    (uint32 (Peer.Seq s0 + len payload)) (Peer.Seq r0) ∧
           same_identity r' r0).
Proof.
  intros Hc Hls Hlr Hsr Hrs.
  destruct (Send_returns _ _ _ payload _ _ _ _ Hc Hls Hlr Hsr Hrs)
    as (w' & out & Hrun).
  destruct (Send_effect _ _ _ _ _ _ _ _ _ _ _ Hrun Hc Hls Hlr)
    as (e1 & e2 & s' & -> & Hrest).
  destruct (Send_frames _ _ _ _ _ _ _ _ Hrun)
    as (l & cn' & [= <-] & Hc' & Hok & Happ & _).
  assert (cn' = cn) as -> by congruence.
  by eexists w', e1, e2, s'.
Qed.
End Calls.

(** *** Construction *)

Lemma run_NewPeer `{!NetLibrary} (mac ip : string) (port isn : Z) (w : world) :
  NewPeer mac ip port isn w =
    match ParseMAC mac with
    | inl macAddr =>
        Returns (Some (fresh (dom (peers w))))
          (World
             (<[fresh (dom (peers w)):=
                  Peer.mk (Some macAddr) (ParseIP ip) port isn 0
                    (Flags.mk false false false) None]> (peers w))
             (conns w)) []
    | inr _ => Exits
    end.
Proof. unfold NewPeer. by destruct (ParseMAC mac). Qed.

(** ** The stand-in library on the concrete connection *)

Lemma Wire_accepts (s r : Peer.t) (m1 m2 i1 i2 : list byte) :
  Wire.hw6 (Peer.MAC s) = Some m1 → Wire.hw6 (Peer.MAC r) = Some m2 →
  Wire.To4 (Peer.IP s) = Some i1 → Wire.To4 (Peer.IP r) = Some i2 →
  @accepted Wire.lib s r.
Proof.
  intros Hm1 Hm2 Hi1 Hi2 tcp payload.
  unfold SerializeLayers, Wire.lib, Wire.serialize, ethernet_of, ipv4_of.
  cbn [Ethernet.SrcMAC Ethernet.DstMAC IPv4.SrcIP IPv4.DstIP].
  rewrite Hm1, Hm2, Hi1, Hi2. by eexists.
Qed.

Lemma Demo_accepted_cs : @accepted Wire.lib Demo.client Demo.server.
Proof. by eapply Wire_accepts. Qed.

Lemma Demo_accepted_sc : @accepted Wire.lib Demo.server Demo.client.
Proof. by eapply Wire_accepts. Qed.

(** ** Construction of a peer *)

(** C1, as the code has it. When the hardware address does not parse,
    NewPeer terminates the process through log.Fatal: nothing is
    returned to the caller and no Peer is allocated. *)
Theorem NewPeer_malformed_MAC_exits `{!NetLibrary} (mac ip : string)
    (port isn : Z) (w : world) (err : string) :
  ParseMAC mac = inr err →
  NewPeer mac ip port isn w = Exits.
Proof. intros Hmac. by rewrite run_NewPeer, Hmac. Qed.

Lemma NewPeer_malformed_MAC_exits_witness :
  @NewPeer GoNet.lib "00:00:5e:00:53" "10.0.0.1" 80 100 (World ∅ ∅) = Exits.
Proof.
  apply (@NewPeer_malformed_MAC_exits GoNet.lib _ _ _ _ _ GoNet.invalid).
  vm_compute. reflexivity.
Defined.

(** C1, as stated, fails: a text that is no IP address is not refused.
    [net.ParseIP] returns nil for it, NewPeer does not look at the
    result, and the caller gets a Peer whose address is nil.  And for
    a malformed hardware address no error comes back to the caller:
    the process is terminated. *)
Lemma NewPeer_accepts_malformed_IP :
  @ParseIP GoNet.lib "not-an-ip" = None ∧
  @NewPeer GoNet.lib "00:00:5e:00:53:01" "not-an-ip" 80 100 (World ∅ ∅)
    = Returns (Some 1%positive)
        (World
           {[1%positive :=
               Peer.mk (Some [0; 0; 94; 0; 83; 1]) None 80 100 0
                       (Flags.mk false false false) None]}
           ∅) [] ∧
  @NewPeer GoNet.lib "zz:zz" "10.0.0.1" 80 100 (World ∅ ∅) = Exits.
Proof. repeat split; vm_compute; reflexivity. Qed.

(** ** The three lifecycle calls *)

Section Handshake.
Context `{!PacketLibrary}.

(** C2. On a connection of two distinct peers whose addresses the
    packet library accepts, one call of Connect returns having
    appended exactly three frames to the packets of the connection,
    in the order SYN from client to server, SYN-ACK from server to
    client, ACK from client to server; afterwards the sequence
    number of the client, and that of the server, is its value
    before the call plus 1 modulo 2^32. *)
Theorem Connect_three_way_handshake (c lc ls : positive) (w : world)
    (cn : Conn.t) (c0 s0 : Peer.t) :
  conns w !! c = Some cn →
  Conn.Client cn = Some lc → Conn.Server cn = Some ls →
  lc ≠ ls →
  peers w !! lc = Some c0 → peers w !! ls = Some s0 →
  accepted c0 s0 → accepted s0 c0 →
  ∃ w' e1 e2 e3 cn' c' s',
    Connect (Some c) w = Returns tt w' [e1; e2; e3] ∧
    conns w' !! c = Some cn' ∧
    Conn.Packets cn' = Conn.Packets cn ++ [wire e1; wire e2; wire e3] ∧
    Forall genuine [e1; e2; e3] ∧
    (by_sender e1 = lc ∧ to_receiver e1 = ls ∧
     flags_of e1 = (true, false, false)) ∧
    (by_sender e2 = ls ∧ to_receiver e2 = lc ∧
     flags_of e2 = (true, true, false)) ∧
    (by_sender e3 = lc ∧ to_receiver e3 = ls ∧
     flags_of e3 = (false, true, false)) ∧
    peers w' !! lc = Some c' ∧
    Peer.Seq c' = (Peer.Seq c0 + 1) mod 2 ^ 32 ∧
    peers w' !! ls = Some s' ∧
    Peer.Seq s' = (Peer.Seq s0 + 1) mod 2 ^ 32.
Proof.
  intros Hc HC HS Hne Hlc Hls Hcs Hsc.
  destruct (Connect_call _ _ _ _ _ _ _ Hc HC HS Hne Hlc Hls Hcs Hsc)
    as (w' & e1 & e2 & e3 & c' & s' & Hrun & Happ & Hok & H1 & H2 & H3
        & Hc' & Hs' & Hstc & Hsts & _).
  exists w', e1, e2, e3,
    (Conn.with_Packets (Conn.Packets cn ++ (wire <$> [e1; e2; e3])) cn),
    c', s'.
  split; [exact Hrun|].
  split; [eapply appended_lookup, Happ|].
  split; [reflexivity|].
  split; [eapply Forall_impl; [exact Hok|]; by intros e [Hg _]|].
  destruct H1 as (? & ? & ? & _), H2 as (? & ? & ? & _),
    H3 as (? & ? & ? & _).
  destruct Hstc as (_ & _ & _ & Hseqc & _), Hsts as (_ & _ & _ & Hseqs & _).
  by repeat split.
Qed.
End Handshake.

Lemma Connect_three_way_handshake_witness :
  ∃ w' e1 e2 e3 cn' c' s',
    @Connect Wire.lib (Some 1%positive) Demo.world0
      = Returns tt w' [e1; e2; e3] ∧
    conns w' !! 1%positive = Some cn' ∧
    Conn.Packets cn' = Conn.Packets Demo.conn ++ [wire e1; wire e2; wire e3] ∧
    Forall (@genuine Wire.lib) [e1; e2; e3] ∧
    (by_sender e1 = 1%positive ∧ to_receiver e1 = 2%positive ∧
     flags_of e1 = (true, false, false)) ∧
    (by_sender e2 = 2%positive ∧ to_receiver e2 = 1%positive ∧
     flags_of e2 = (true, true, false)) ∧
    (by_sender e3 = 1%positive ∧ to_receiver e3 = 2%positive ∧
     flags_of e3 = (false, true, false)) ∧
    peers w' !! 1%positive = Some c' ∧
    Peer.Seq c' = (Peer.Seq Demo.client + 1) mod 2 ^ 32 ∧
    peers w' !! 2%positive = Some s' ∧
    Peer.Seq s' = (Peer.Seq Demo.server + 1) mod 2 ^ 32.
Proof.
  apply (@Connect_three_way_handshake Wire.lib 1%positive 1%positive
           2%positive Demo.world0 Demo.conn Demo.client Demo.server).
  - reflexivity.
  - reflexivity.
  - reflexivity.
  - discriminate.
  - reflexivity.
  - reflexivity.
  - exact Demo_accepted_cs.
  - exact Demo_accepted_sc.
Defined.

(** The two peers have to be two objects: with one Peer as both client
    and server, both increments of Connect hit the same sequence
    number. *)
Example Connect_on_one_peer :
  numbers_of <$> frames_of (@Connect Wire.lib (Some 1%positive)
                              Demo.world_one_peer)
    = [(100, 0); (101, 101); (102, 102)] ∧
  Peer.Seq <$>
    peers (world_after (@Connect Wire.lib (Some 1%positive)
                          Demo.world_one_peer) Demo.world_one_peer)
      !! 1%positive
    = Some 102.
Proof. split; vm_compute; reflexivity. Qed.

Section DataExchange.
Context `{!PacketLibrary}.

(** C3. For every connection, every pair of peers (the same peer
    twice included) whose addresses the packet library accepts, and
    every payload, one call of Send returns having appended exactly
    two frames: first the data frame from sender to receiver, then
    the acknowledgment from receiver to sender; the sequence number
    of the sender advances by the length of the payload modulo 2^32,
    and is unchanged when that length is 0. *)
Theorem Send_data_then_ack (c ls lr : positive) (payload : slice byte)
    (w : world) (cn : Conn.t) (s0 r0 : Peer.t) :
  conns w !! c = Some cn →
  peers w !! ls = Some s0 → peers w !! lr = Some r0 →
  accepted s0 r0 → accepted r0 s0 →
  ∃ w' e1 e2 cn' s',
    Send (Some c) (Some ls) (Some lr) payload w = Returns tt w' [e1; e2] ∧
    conns w' !! c = Some cn' ∧
    Conn.Packets cn' = Conn.Packets cn ++ [wire e1; wire e2] ∧
    Forall genuine [e1; e2] ∧
    (by_sender e1 = ls ∧ to_receiver e1 = lr ∧ payload_layer e1 = payload) ∧
    (by_sender e2 = lr ∧ to_receiver e2 = ls ∧ payload_layer e2 = None ∧
     flags_of e2 = (false, true, false)) ∧
    peers w' !! ls = Some s' ∧
    Peer.Seq s' = (Peer.Seq s0 + len payload) mod 2 ^ 32 ∧
    (len payload = 0 → 0 ≤ Peer.Seq s0 < 2 ^ 32 →
     Peer.Seq s' = Peer.Seq s0).
Proof.
  intros Hc Hls Hlr Hsr Hrs.
  destruct (Send_call _ _ _ payload _ _ _ _ Hc Hls Hlr Hsr Hrs)
    as (w' & e1 & e2 & s' & Hrun & Happ & Hok & H1 & Hp1 & Hb2 & Ht2 & Hf2
        & _ & Hp2 & Hs' & Hseq & _).
  exists w', e1, e2,
    (Conn.with_Packets (Conn.Packets cn ++ (wire <$> [e1; e2])) cn), s'.
  split; [exact Hrun|].
  split; [eapply appended_lookup, Happ|].
  split; [reflexivity|].
  split; [eapply Forall_impl; [exact Hok|]; by intros e [Hg _]|].
  destruct H1 as (? & ? & _).
  repeat split; try done.
  intros Hlen Hrange. rewrite Hseq, Hlen, Z.add_0_r.
  unfold uint32. by apply Z.mod_small.
Qed.

(** C4. On a connection of two distinct peers whose addresses the
    packet library accepts, one call of Disconnect returns having
    appended exactly three frames, in the order FIN-ACK from client
    to server, FIN-ACK from server to client, ACK from client to
    server; afterwards the sequence number of the client, and that
    of the server, is its value before the call plus 1 modulo
    2^32. *)
Theorem Disconnect_active_close (c lc ls : positive) (w : world)
    (cn : Conn.t) (c0 s0 : Peer.t) :
  conns w !! c = Some cn →
  Conn.Client cn = Some lc → Conn.Server cn = Some ls →
  lc ≠ ls →
  peers w !! lc = Some c0 → peers w !! ls = Some s0 →
  accepted c0 s0 → accepted s0 c0 →
  ∃ w' e1 e2 e3 cn' c' s',
    Disconnect (Some c) w = Returns tt w' [e1; e2; e3] ∧
    conns w' !! c = Some cn' ∧
    Conn.Packets cn' = Conn.Packets cn ++ [wire e1; wire e2; wire e3] ∧
    Forall genuine [e1; e2; e3] ∧
    (by_sender e1 = lc ∧ to_receiver e1 = ls ∧
     flags_of e1 = (false, true, true)) ∧
    (by_sender e2 = ls ∧ to_receiver e2 = lc ∧
     flags_of e2 = (false, true, true)) ∧
    (by_sender e3 = lc ∧ to_receiver e3 = ls ∧
     flags_of e3 = (false, true, false)) ∧
    peers w' !! lc = Some c' ∧
    Peer.Seq c' = (Peer.Seq c0 + 1) mod 2 ^ 32 ∧
    peers w' !! ls = Some s' ∧
    Peer.Seq s' = (Peer.Seq s0 + 1) mod 2 ^ 32.
Proof.
  intros Hc HC HS Hne Hlc Hls Hcs Hsc.
  destruct (Disconnect_call _ _ _ _ _ _ _ Hc HC HS Hne Hlc Hls Hcs Hsc)
    as (w' & e1 & e2 & e3 & c' & s' & Hrun & Happ & Hok & H1 & H2 & H3
        & Hc' & Hs' & Hstc & Hsts & _).
  exists w', e1, e2, e3,
    (Conn.with_Packets (Conn.Packets cn ++ (wire <$> [e1; e2; e3])) cn),
    c', s'.
  split; [exact Hrun|].
  split; [eapply appended_lookup, Happ|].
  split; [reflexivity|].
  split; [eapply Forall_impl; [exact Hok|]; by intros e [Hg _]|].
  destruct H1 as (? & ? & ? & _), H2 as (? & ? & ? & _),
    H3 as (? & ? & ? & _).
  destruct Hstc as (_ & _ & _ & Hseqc & _), Hsts as (_ & _ & _ & Hseqs & _).
  by repeat split.
Qed.

(** C5. Whatever the script of Connect, Send and Disconnect calls,
    every frame it has synthesized was built from the two peers as
    they were at that moment and, when its ACK flag is set, its
    acknowledgment number is the sequence number the receiving peer
    had at that very moment. *)
Theorem acknowledgment_is_current (c : ptr) (script : list call)
    (w w' : world) (a : unit) (out : list Synthesis) :
  run c script w = Returns a w' out →
  Forall (λ e, genuine e ∧ ack_current e) out.
Proof.
  revert w out. induction script as [|k script IH]; intros w out.
  - intros [= <- <- <-]. constructor.
  - intros Hrun.
    destruct (run_cons_inv _ _ _ _ _ _ _ Hrun)
      as (w1 & o1 & o2 & Hk & Hrest & ->).
    destruct (run_call_frames _ _ _ _ _ _ Hk) as (l & cn & _ & _ & Hok & _).
    apply Forall_app. split; [exact Hok|]. eapply IH, Hrest.
Qed.
End DataExchange.

Lemma Send_data_then_ack_witness :
  (∃ w' e1 e2 s',
     @Send Wire.lib (Some 1%positive) (Some 1%positive) (Some 2%positive)
       (Some [97; 98; 99]) Demo.world0 = Returns tt w' [e1; e2] ∧
     peers w' !! 1%positive = Some s' ∧
     Peer.Seq s' = (100 + 3) mod 2 ^ 32) ∧
  (∃ w' e1 e2 s',
     @Send Wire.lib (Some 1%positive) (Some 1%positive) (Some 2%positive)
       (Some []) Demo.world0 = Returns tt w' [e1; e2] ∧
     peers w' !! 1%positive = Some s' ∧
     Peer.Seq s' = 100).
Proof.
  split.
  - destruct (@Send_data_then_ack Wire.lib 1%positive 1%positive 2%positive
                (Some [97; 98; 99]) Demo.world0 Demo.conn Demo.client
                Demo.server)
      as (w' & e1 & e2 & cn' & s' & Hrun & _ & _ & _ & _ & _ & Hs' & Hseq & _).
    + reflexivity.
    + reflexivity.
    + reflexivity.
    + exact Demo_accepted_cs.
    + exact Demo_accepted_sc.
    + exists w', e1, e2, s'.
      split; [exact Hrun|]. split; [exact Hs'|]. exact Hseq.
  - destruct (@Send_data_then_ack Wire.lib 1%positive 1%positive 2%positive
                (Some []) Demo.world0 Demo.conn Demo.client Demo.server)
      as (w' & e1 & e2 & cn' & s' & Hrun & _ & _ & _ & _ & _ & Hs' & _ & Hnil).
    + reflexivity.
    + reflexivity.
    + reflexivity.
    + exact Demo_accepted_cs.
    + exact Demo_accepted_sc.
    + exists w', e1, e2, s'. split; [exact Hrun|]. split; [exact Hs'|].
      apply Hnil; [reflexivity|]. by vm_compute.
Defined.

Lemma Disconnect_active_close_witness :
  ∃ w' e1 e2 e3 c' s',
    @Disconnect Wire.lib (Some 1%positive) Demo.world0
      = Returns tt w' [e1; e2; e3] ∧
    peers w' !! 1%positive = Some c' ∧ Peer.Seq c' = 101 ∧
    peers w' !! 2%positive = Some s' ∧ Peer.Seq s' = 501.
Proof.
  destruct (@Disconnect_active_close Wire.lib 1%positive 1%positive
              2%positive Demo.world0 Demo.conn Demo.client Demo.server)
    as (w' & e1 & e2 & e3 & cn' & c' & s' & Hrun & _ & _ & _ & _ & _ & _
        & Hc' & Hseqc & Hs' & Hseqs).
  - reflexivity.
  - reflexivity.
  - reflexivity.
  - discriminate.
  - reflexivity.
  - reflexivity.
  - exact Demo_accepted_cs.
  - exact Demo_accepted_sc.
  - exists w', e1, e2, e3, c', s'.
    split; [exact Hrun|]. split; [exact Hc'|]. split; [exact Hseqc|].
    split; [exact Hs'|]. exact Hseqs.
Defined.


(** The script Connect, Send "abc" from client to server, Disconnect on
    the concrete connection: it returns, with eight frames. *)
Lemma acknowledgment_is_current_witness :
  length (frames_of Run.whole) = 8%nat ∧
  Forall (λ e, @genuine Wire.lib e ∧ ack_current e) (frames_of Run.whole).
Proof.
  split; [vm_compute; reflexivity|].
  apply (@acknowledgment_is_current Wire.lib (Some 1%positive) Demo.script
           Demo.world0 (world_after Run.whole Demo.world0) tt
           (frames_of Run.whole)).
  vm_compute. reflexivity.
Defined.

(** ** Options by phase *)

Section Phases.
Context `{!PacketLibrary}.

Lemma in_ACK_phase_with_Packets (cn : Conn.t) (v : list (list byte))
    (e : Synthesis) :
  in_ACK_phase (Conn.with_Packets v cn) e → in_ACK_phase cn e.
Proof. intros Hin. exact Hin. Qed.

Lemma steady_run (l : positive) (script : list call) (w w' : world)
    (a : unit) (out : list Synthesis) (cn : Conn.t) :
  Forall after_handshake script →
  steady l w →
  conns w !! l = Some cn →
  run (Some l) script w = Returns a w' out →
  Forall (in_ACK_phase cn) out.
Proof.
  intros Hscript. revert w out cn.
  induction Hscript as [|k script Hk Hscript IH]; intros w out cn Hst Hc.
  - intros [= <- <- <-]. constructor.
  - intros Hrun.
    destruct (run_cons_inv _ _ _ _ _ _ _ Hrun)
      as (w1 & o1 & o2 & Hcall & Hrest & ->).
    destruct (steady_step _ _ _ _ _ _ _ Hk Hst Hc Hcall)
      as (Hst1 & Ho1 & Happ).
    apply Forall_app. split; [exact Ho1|].
    eapply Forall_impl;
      [eapply (IH _ _ _ Hst1 (appended_lookup _ _ _ _ _ Happ) Hrest)|].
    intros e. apply in_ACK_phase_with_Packets.
Qed.

(** C6, as the code has it. The three frames of a Connect call carry
    the SYN, the SYN-ACK and the ACK option set of the connection in
    this order; and once a Connect call has returned, every frame
    that a later script of Send and Disconnect calls synthesizes for
    a sending peer of the connection carries the ACK option set. *)
Theorem options_by_phase (c : ptr) (script : list call)
    (w w1 w2 : world) (a : unit) (out1 out2 : list Synthesis) :
  Connect c w = Returns tt w1 out1 →
  Forall after_handshake script →
  run c script w1 = Returns a w2 out2 →
  ∃ (l : positive) (cn : Conn.t) (e1 e2 e3 : Synthesis),
    c = Some l ∧ conns w !! l = Some cn ∧
    out1 = [e1; e2; e3] ∧
    TCP.Options (tcp_layer e1) = PhaseOptions.SYN (Conn.Options cn) ∧
    TCP.Options (tcp_layer e2) = PhaseOptions.SYNACK (Conn.Options cn) ∧
    TCP.Options (tcp_layer e3) = PhaseOptions.ACK (Conn.Options cn) ∧
    Forall (in_ACK_phase cn) out2.
Proof.
  intros Hconnect Hscript Hrun.
  destruct (Connect_frames _ _ _ _ _ Hconnect)
    as (l & cn & -> & Hc & _ & Happ & Hst & e1 & e2 & e3 & -> & H1 & H2 & H3).
  exists l, cn, e1, e2, e3. do 6 (split; [done|]).
  eapply Forall_impl;
    [eapply (steady_run _ _ _ _ _ _ _ Hscript Hst
               (appended_lookup _ _ _ _ _ Happ) Hrun)|].
  intros e. apply in_ACK_phase_with_Packets.
Qed.
End Phases.

(** C6, as stated, fails: a second Connect is a lifecycle call after
    Connect has returned, and its first two frames carry the SYN and
    the SYN-ACK option set again, not the ACK set (which is nil
    here). *)
Lemma second_Connect_leaves_ACK_phase :
  (λ e, (by_sender e, TCP.Options (tcp_layer e)))
    <$> frames_of (@run Wire.lib (Some 1%positive)
                     [CallConnect; CallConnect] Demo.world0)
  = [(1%positive, Some [Demo.mss]); (2%positive, Some [Demo.mss]);
     (1%positive, None);
     (1%positive, Some [Demo.mss]); (2%positive, Some [Demo.mss]);
     (1%positive, None)] ∧
  PhaseOptions.ACK (Conn.Options Demo.conn) = None.
Proof. split; [vm_compute; reflexivity | reflexivity]. Qed.

Lemma options_by_phase_witness :
  length (frames_of Run.rest) = 5%nat ∧
  Forall (in_ACK_phase Demo.conn) (frames_of Run.rest).
Proof.
  split; [vm_compute; reflexivity|].
  destruct (@options_by_phase Wire.lib (Some 1%positive) Demo.later
              Demo.world0 (world_after Run.handshake Demo.world0)
              (world_after Run.rest Demo.world0) tt
              (frames_of Run.handshake) (frames_of Run.rest))
    as (l & cn & e1 & e2 & e3 & Hl & Hc & _ & _ & _ & _ & Hall).
  - vm_compute. reflexivity.
  - repeat constructor; discriminate.
  - vm_compute. reflexivity.
  - injection Hl as <-. vm_compute in Hc. injection Hc as <-. exact Hall.
Defined.

(** ** Frame synthesis *)

Section Synthesis.
Context `{!PacketLibrary}.

(** C7. A call of createPacket that returns has handed to the
    library a TCP header whose options field is the sender's options
    field as it is: the same list when the sender's field is
    non-nil, the empty list included, and nil (nothing written) when
    it is nil; so a nil and an empty options field give different
    headers. *)
Theorem createPacket_options (c : ptr) (ls : positive) (receiver : ptr)
    (payload : slice byte) (w w' : world) (a : unit)
    (out : list Synthesis) (sp : Peer.t) :
  createPacket c (Some ls) receiver payload w = Returns a w' out →
  peers w !! ls = Some sp →
  ∃ e,
    out = [e] ∧ by_sender e = ls ∧
    SerializeLayers (eth_layer e) (ip_layer e) (tcp_layer e)
      (payload_layer e) = Some (wire e) ∧
    (∀ opts, Peer.Options sp = Some opts →
             TCP.Options (tcp_layer e) = Some opts) ∧
    (Peer.Options sp = None → TCP.Options (tcp_layer e) = None) ∧
    (Peer.Options sp = Some [] → TCP.Options (tcp_layer e) ≠ None).
Proof.
  intros Hrun Hsp. revert Hrun. run_last.
  intros [= <- <- <-]. eexists. split; [reflexivity|].
  split; [reflexivity|]. split; [eassumption|].
  fields. repeat split; congruence.
Qed.

(** C8. A call of createPacket that returns has added exactly one
    frame, at the end of the packets of its connection, every
    earlier frame keeping its content and its position; and after
    any script of lifecycle calls the packets are those from before
    followed by the frames of the script in the order they were
    synthesized. *)
Theorem packets_append_only :
  (∀ (c sender receiver : ptr) (payload : slice byte) (w w' : world)
     (a : unit) (out : list Synthesis),
     createPacket c sender receiver payload w = Returns a w' out →
     ∃ (l : positive) (cn cn' : Conn.t) (e : Synthesis),
       c = Some l ∧ conns w !! l = Some cn ∧ conns w' !! l = Some cn' ∧
       out = [e] ∧
       Conn.Packets cn' = Conn.Packets cn ++ [wire e] ∧
       length (Conn.Packets cn') = S (length (Conn.Packets cn)) ∧
       (∀ i p, Conn.Packets cn !! i = Some p →
               Conn.Packets cn' !! i = Some p)) ∧
  (∀ (l : positive) (script : list call) (w w' : world) (a : unit)
     (out : list Synthesis) (cn : Conn.t),
     run (Some l) script w = Returns a w' out →
     conns w !! l = Some cn →
     ∃ cn' : Conn.t,
       conns w' !! l = Some cn' ∧
       Conn.Packets cn' = Conn.Packets cn ++ (wire <$> out) ∧
       (∀ i p, Conn.Packets cn !! i = Some p →
               Conn.Packets cn' !! i = Some p)).
Proof.
  split.
  - intros c sender receiver payload w w' a out. run_last.
    intros [= <- <- <-]. eexists _, _, _, _.
    split; [reflexivity|]. split; [eassumption|].
    split; [find_peer|]. split; [reflexivity|].
    fields. split; [reflexivity|].
    split; [rewrite length_app; simpl; lia|].
    intros i q Hq. by apply lookup_app_l_Some.
  - intros l script w w' a out cn Hrun Hc.
    pose proof (run_appended _ _ _ _ _ _ _ Hrun Hc) as Happ.
    eexists. split; [eapply appended_lookup, Happ|].
    fields. split; [reflexivity|].
    intros i q Hq. by apply lookup_app_l_Some.
Qed.
End Synthesis.

Lemma createPacket_options_witness :
  ∃ e, frames_of Run.one_frame = [e] ∧ TCP.Options (tcp_layer e) = Some [].
Proof.
  destruct (@createPacket_options Wire.lib (Some 1%positive) 1%positive
              (Some 2%positive) None Demo.world_empty_options
              (world_after Run.one_frame Demo.world_empty_options) tt
              (frames_of Run.one_frame)
              (Peer.with_Options (Some []) Demo.client))
    as (e & Hout & _ & _ & Hsome & _).
  - vm_compute. reflexivity.
  - reflexivity.
  - exists e. split; [exact Hout|]. apply Hsome. reflexivity.
Defined.

Lemma packets_append_only_witness :
  ∃ cn',
    conns (world_after Run.whole Demo.world0) !! 1%positive = Some cn' ∧
    Conn.Packets cn' =
      Conn.Packets Demo.conn ++ (wire <$> frames_of Run.whole).
Proof.
  destruct (proj2 (@packets_append_only Wire.lib) 1%positive Demo.script
              Demo.world0 (world_after Run.whole Demo.world0) tt
              (frames_of Run.whole) Demo.conn)
    as (cn' & Hcn' & Hpk & _).
  - vm_compute. reflexivity.
  - reflexivity.
  - exists cn'. split; [exact Hcn' | exact Hpk].
Defined.

(** ** The scripted exchange *)

Section Determinism.
Context `{!NetLibrary} `{!PacketLibrary}.

(** C9. From any store, with hardware addresses that parse and
    addresses the packet library accepts, the scripted exchange
    (peers with initial sequence numbers 100 and 500, Connect, Send
    of "abc" from client to server, Disconnect) returns with exactly
    these 8 frames, 3 + 2 + 3, with these flags, sequence numbers
    and acknowledgment numbers, and the packets of the connection
    are their bytes in this order; the result is a function of the
    inputs, so a second run from an equal store gives the same
    frames. *)
Theorem scripted_exchange_frames (mac1 ip1 : string) (port1 : Z)
    (mac2 ip2 : string) (port2 : Z) (m1 m2 : list byte) (w : world) :
  ParseMAC mac1 = inl m1 →
  ParseMAC mac2 = inl m2 →
  accepted
    (Peer.mk (Some m1) (ParseIP ip1) port1 100 0
             (Flags.mk false false false) None)
    (Peer.mk (Some m2) (ParseIP ip2) port2 500 0
             (Flags.mk false false false) None) →
  accepted
    (Peer.mk (Some m2) (ParseIP ip2) port2 500 0
             (Flags.mk false false false) None)
    (Peer.mk (Some m1) (ParseIP ip1) port1 100 0
             (Flags.mk false false false) None) →
  ∃ (w' : world) (out : list Synthesis) (lc ls c : positive) (cn : Conn.t),
    scripted_exchange mac1 ip1 port1 mac2 ip2 port2 w = Returns tt w' out ∧
    lc ≠ ls ∧
    by_sender <$> out = [lc; ls; lc; lc; ls; lc; ls; lc] ∧
    flags_of <$> out =
      [(true, false, false); (true, true, false); (false, true, false);
       (false, true, false); (false, true, false);
       (false, true, true); (false, true, true); (false, true, false)] ∧
    numbers_of <$> out =
      [(100, 0); (500, 101); (101, 501);
       (101, 501); (501, 104);
       (104, 501); (501, 105); (105, 502)] ∧
    conns w' !! c = Some cn ∧
    Conn.Packets cn = wire <$> out ∧
    (∀ w2, w2 = w →
       scripted_exchange mac1 ip1 port1 mac2 ip2 port2 w2
         = Returns tt w' out).
Proof.
  intros Hm1 Hm2 Hcs Hsc.
  set (p1 := Peer.mk (Some m1) (ParseIP ip1) port1 100 0
               (Flags.mk false false false) None) in *.
  set (p2 := Peer.mk (Some m2) (ParseIP ip2) port2 500 0
               (Flags.mk false false false) None) in *.
  set (lc := fresh (dom (peers w))).
  set (ls := fresh (dom (<[lc:=p1]> (peers w)))).
  set (c := fresh (dom (conns w))).
  set (cn0 := Conn.mk (Some lc) (Some ls) (PhaseOptions.mk None None None) []).
  set (w0 := World (<[ls:=p2]> (<[lc:=p1]> (peers w)))
               (<[c:=cn0]> (conns w))).
  assert (Hne : lc ≠ ls).
  { intros Heq. apply (is_fresh (dom (<[lc:=p1]> (peers w)))).
    fold ls. rewrite <- Heq. apply elem_of_dom. rewrite lookup_insert_eq.
    by eexists. }
  destruct (Connect_call c lc ls w0 cn0 p1 p2)
    as (w1 & e1 & e2 & e3 & c1 & s1 & Hrun1 & Happ1 & _ & H1 & H2 & H3
        & Hc1 & Hs1 & Hstc1 & Hsts1 & Hidc1 & Hids1);
    [ apply lookup_insert_eq | reflexivity | reflexivity | exact Hne
    | cbn; by rewrite lookup_insert_ne, lookup_insert_eq
    | apply lookup_insert_eq | exact Hcs | exact Hsc | ].
  destruct (Send_call c lc ls (Some (GoNet.bytes "abc")) w1 _ c1 s1
              (appended_lookup _ _ _ _ _ Happ1) Hc1 Hs1)
    as (w2 & e4 & e5 & c2 & Hrun2 & Happ2 & _ & H4 & _ & Hb5 & _ & Hf5
        & Ha5 & _ & Hc2 & Hseq2 & Hidc2 & Hrest);
    [ eapply accepted_same; [exact Hcs | exact Hidc1 | exact Hids1]
    | eapply accepted_same; [exact Hsc | exact Hids1 | exact Hidc1] | ].
  destruct (Hrest Hne) as (Hq5 & s2 & Hs2 & Hsts2 & Hstc2 & Hids2).
  destruct (Disconnect_call c lc ls w2 _ c2 s2
              (appended_lookup _ _ _ _ _ Happ2) eq_refl eq_refl Hne Hc2 Hs2)
    as (w3 & e6 & e7 & e8 & c3 & s3 & Hrun3 & Happ3 & _ & H6 & H7 & H8 & _).
  { eapply accepted_same; [exact Hcs| |].
    - destruct Hidc2 as (? & ? & ?), Hidc1 as (? & ? & ?).
      repeat split; congruence.
    - destruct Hids2 as (? & ? & ?), Hids1 as (? & ? & ?).
      repeat split; congruence. }
  { eapply accepted_same; [exact Hsc| |].
    - destruct Hids2 as (? & ? & ?), Hids1 as (? & ? & ?).
      repeat split; congruence.
    - destruct Hidc2 as (? & ? & ?), Hidc1 as (? & ? & ?).
      repeat split; congruence. }
  assert (Hrun : scripted_exchange mac1 ip1 port1 mac2 ip2 port2 w
                 = Returns tt w3 [e1; e2; e3; e4; e5; e6; e7; e8]).
  { unfold scripted_exchange.
    rewrite run_bind, run_NewPeer, Hm1. fold p1 lc.
    rewrite run_bind, run_NewPeer, Hm2. cbn [peers conns]. fold p2 ls.
    rewrite run_bind. unfold NewConn, new_conn. cbn [peers conns].
    fold c cn0 w0.
    rewrite run_bind, Hrun1, run_bind, Hrun2, Hrun3. reflexivity. }
  destruct Hstc1 as (_ & _ & _ & Hseqc1 & _).
  destruct Hsts1 as (_ & _ & _ & Hseqs1 & _).
  destruct Hsts2 as (_ & _ & _ & Hseqs2 & _).
  assert (Hn1 : Peer.Seq c1 = 101) by (by rewrite Hseqc1).
  assert (Hn2 : Peer.Seq s1 = 501) by (by rewrite Hseqs1).
  assert (Hn3 : Peer.Seq c2 = 104) by (by rewrite Hseq2, Hn1).
  assert (Hn4 : Peer.Seq s2 = 501) by (by rewrite Hseqs2).
  destruct H1 as (Hb1 & _ & Hf1 & Hq1 & Ha1), H2 as (Hb2 & _ & Hf2 & Hq2 & Ha2),
    H3 as (Hb3 & _ & Hf3 & Hq3 & Ha3), H4 as (Hb4 & _ & Hf4 & Hq4 & Ha4),
    H6 as (Hb6 & _ & Hf6 & Hq6 & Ha6), H7 as (Hb7 & _ & Hf7 & Hq7 & Ha7),
    H8 as (Hb8 & _ & Hf8 & Hq8 & Ha8).
  exists w3, [e1; e2; e3; e4; e5; e6; e7; e8], lc, ls, c.
  eexists.
  split; [exact Hrun|]. split; [exact Hne|].
  split; [cbn [fmap list_fmap]; congruence|].
  split; [cbn [fmap list_fmap]; congruence|].
  split.
  { unfold numbers_of. cbn [fmap list_fmap].
    rewrite Hq1, Ha1, Hq2, Ha2, Hq3, Ha3, Hq4, Ha4, Hq5, Ha5, Hq6, Ha6,
      Hq7, Ha7, Hq8, Ha8, Hn1, Hn2, Hn3, Hn4.
    reflexivity. }
  split; [eapply appended_lookup, Happ3|].
  split; [reflexivity|].
  intros w4 ->. exact Hrun.
Qed.
End Determinism.

Lemma scripted_exchange_frames_witness :
  ∃ (w' : world) (out : list Synthesis),
    @scripted_exchange GoNet.lib Wire.lib "00:00:5e:00:53:01" "10.0.0.1" 40000
      "00:00:5e:00:53:02" "10.0.0.2" 80 (World ∅ ∅) = Returns tt w' out ∧
    numbers_of <$> out =
      [(100, 0); (500, 101); (101, 501);
       (101, 501); (501, 104);
       (104, 501); (501, 105); (105, 502)].
Proof.
  destruct (@scripted_exchange_frames GoNet.lib Wire.lib
              "00:00:5e:00:53:01" "10.0.0.1" 40000
              "00:00:5e:00:53:02" "10.0.0.2" 80
              [0; 0; 94; 0; 83; 1] [0; 0; 94; 0; 83; 2] (World ∅ ∅))
    as (w' & out & lc & ls & c & cn & Hrun & _ & _ & _ & Hnum & _).
  - vm_compute. reflexivity.
  - vm_compute. reflexivity.
  - by eapply Wire_accepts.
  - by eapply Wire_accepts.
  - exists w', out. split; [exact Hrun | exact Hnum].
Defined.

(** ** No connection phase *)

Section NoPhase.
Context `{!PacketLibrary}.

(** C10. No lifecycle call looks at, or records, a phase of the
    connection.  In every store, whatever the flags, numbers,
    options and packets already there, for two distinct peers whose
    addresses the packet library accepts: Connect returns with its
    three frames, Send with its two, Disconnect with its three; each
    overwrites the flags and the acknowledgment number of the peers
    with the same values and applies its increments of the sequence
    numbers; the Conn record changes in its packets only; and a
    Connect run twice in a row appends six handshake frames and
    advances both sequence numbers twice. *)
Theorem lifecycle_ignores_phase (c lc ls : positive)
    (payload : slice byte) (w : world) (cn : Conn.t) (c0 s0 : Peer.t) :
  conns w !! c = Some cn →
  Conn.Client cn = Some lc → Conn.Server cn = Some ls →
  lc ≠ ls →
  peers w !! lc = Some c0 → peers w !! ls = Some s0 →
  accepted c0 s0 → accepted s0 c0 →
  (∃ w' out c' s',
     Connect (Some c) w = Returns tt w' out ∧ length out = 3%nat ∧
     conns w' !! c
       = Some (Conn.with_Packets (Conn.Packets cn ++ (wire <$> out)) cn) ∧
     peers w' !! lc = Some c' ∧ peers w' !! ls = Some s' ∧
     in_state c' false true false (uint32 (Peer.Seq c0 + 1))
              (uint32 (Peer.Seq s0 + 1)) ∧
     in_state s' true true false (uint32 (Peer.Seq s0 + 1))
              (uint32 (Peer.Seq c0 + 1))) ∧
  (∃ w' out c' s',
     Send (Some c) (Some lc) (Some ls) payload w = Returns tt w' out ∧
     length out = 2%nat ∧
     conns w' !! c
       = Some (Conn.with_Packets (Conn.Packets cn ++ (wire <$> out)) cn) ∧
     peers w' !! lc = Some c' ∧ peers w' !! ls = Some s' ∧
     in_state c' false true false (uint32 (Peer.Seq c0 + len payload))
              (Peer.Seq s0) ∧
     in_state s' false true false (Peer.Seq s0)
              (uint32 (Peer.Seq c0 + len payload))) ∧
  (∃ w' out c' s',
     Disconnect (Some c) w = Returns tt w' out ∧ length out = 3%nat ∧
     conns w' !! c
       = Some (Conn.with_Packets (Conn.Packets cn ++ (wire <$> out)) cn) ∧
     peers w' !! lc = Some c' ∧ peers w' !! ls = Some s' ∧
     in_state c' false true false (uint32 (Peer.Seq c0 + 1))
              (uint32 (Peer.Seq s0 + 1)) ∧
     in_state s' false true true (uint32 (Peer.Seq s0 + 1))
              (uint32 (Peer.Seq c0 + 1))) ∧
  (∃ w' out c' s',
     run (Some c) [CallConnect; CallConnect] w = Returns tt w' out ∧
     flags_of <$> out =
       [(true, false, false); (true, true, false); (false, true, false);
        (true, false, false); (true, true, false); (false, true, false)] ∧
     conns w' !! c
       = Some (Conn.with_Packets (Conn.Packets cn ++ (wire <$> out)) cn) ∧
     peers w' !! lc = Some c' ∧ peers w' !! ls = Some s' ∧
     Peer.Seq c' = uint32 (uint32 (Peer.Seq c0 + 1) + 1) ∧
     Peer.Seq s' = uint32 (uint32 (Peer.Seq s0 + 1) + 1)).
Proof.
  intros Hc HC HS Hne Hlc Hls Hcs Hsc.
  destruct (Connect_call _ _ _ _ _ _ _ Hc HC HS Hne Hlc Hls Hcs Hsc)
    as (w1 & e1 & e2 & e3 & c1 & s1 & Hrun1 & Happ1 & _ & H1 & H2 & H3
        & Hc1 & Hs1 & Hstc1 & Hsts1 & Hidc1 & Hids1).
  split; [|split; [|split]].
  - exists w1, [e1; e2; e3], c1, s1.
    split; [exact Hrun1|]. split; [reflexivity|].
    split; [eapply appended_lookup, Happ1|]. done.
  - destruct (Send_call _ _ _ payload _ _ _ _ Hc Hlc Hls Hcs Hsc)
      as (w2 & e4 & e5 & c2 & Hrun2 & Happ2 & _ & _ & _ & _ & _ & _ & _ & _
          & Hc2 & _ & _ & Hrest).
    destruct (Hrest Hne) as (_ & s2 & Hs2 & Hsts2 & Hstc2 & _).
    exists w2, [e4; e5], c2, s2.
    split; [exact Hrun2|]. split; [reflexivity|].
    split; [eapply appended_lookup, Happ2|]. done.
  - destruct (Disconnect_call _ _ _ _ _ _ _ Hc HC HS Hne Hlc Hls Hcs Hsc)
      as (w2 & e4 & e5 & e6 & c2 & s2 & Hrun2 & Happ2 & _ & _ & _ & _
          & Hc2 & Hs2 & Hstc2 & Hsts2 & _).
    exists w2, [e4; e5; e6], c2, s2.
    split; [exact Hrun2|]. split; [reflexivity|].
    split; [eapply appended_lookup, Happ2|]. done.
  - destruct (Connect_call c lc ls w1 _ c1 s1
                (appended_lookup _ _ _ _ _ Happ1) HC HS Hne Hc1 Hs1)
      as (w2 & e4 & e5 & e6 & c2 & s2 & Hrun2 & Happ2 & _ & H4 & H5 & H6
          & Hc2 & Hs2 & Hstc2 & Hsts2 & _);
      [ eapply accepted_same; [exact Hcs | exact Hidc1 | exact Hids1]
      | eapply accepted_same; [exact Hsc | exact Hids1 | exact Hidc1] | ].
    exists w2, [e1; e2; e3; e4; e5; e6], c2, s2.
    split.
    { cbn [run run_call].
      rewrite run_bind, Hrun1, run_bind, Hrun2. reflexivity. }
    destruct H1 as (_ & _ & Hf1 & _), H2 as (_ & _ & Hf2 & _),
      H3 as (_ & _ & Hf3 & _), H4 as (_ & _ & Hf4 & _),
      H5 as (_ & _ & Hf5 & _), H6 as (_ & _ & Hf6 & _).
    split; [cbn [fmap list_fmap]; congruence|].
    split.
    { rewrite (appended_lookup _ _ _ _ _ Happ2).
      cbn [Conn.Packets Conn.with_Packets fmap list_fmap].
      by rewrite <- app_assoc. }
    destruct Hstc1 as (_ & _ & _ & Hq1 & _), Hsts1 as (_ & _ & _ & Hq2 & _),
      Hstc2 as (_ & _ & _ & Hq3 & _), Hsts2 as (_ & _ & _ & Hq4 & _).
    repeat split; congruence.
Qed.
End NoPhase.

(** On the concrete connection, right after its construction: Send
    before any Connect, and Connect twice. *)
Lemma lifecycle_ignores_phase_witness :
  (∃ w' out,
     @Send Wire.lib (Some 1%positive) (Some 1%positive) (Some 2%positive)
       (Some [97; 98; 99]) Demo.world0 = Returns tt w' out ∧
     length out = 2%nat) ∧
  (∃ w' out c' s',
     @run Wire.lib (Some 1%positive) [CallConnect; CallConnect] Demo.world0
       = Returns tt w' out ∧
     length out = 6%nat ∧
     peers w' !! 1%positive = Some c' ∧ peers w' !! 2%positive = Some s' ∧
     Peer.Seq c' = 102 ∧ Peer.Seq s' = 502).
Proof.
  destruct (@lifecycle_ignores_phase Wire.lib 1%positive 1%positive
              2%positive (Some [97; 98; 99]) Demo.world0 Demo.conn Demo.client
              Demo.server)
    as (_ & (w2 & out2 & _ & _ & Hrun2 & Hlen2 & _) & _
        & (w4 & out4 & c4 & s4 & Hrun4 & Hflags & _ & Hc4 & Hs4 & Hq4 & Hr4)).
  - reflexivity.
  - reflexivity.
  - reflexivity.
  - discriminate.
  - reflexivity.
  - reflexivity.
  - exact Demo_accepted_cs.
  - exact Demo_accepted_sc.
  - split.
    + exists w2, out2. split; [exact Hrun2 | exact Hlen2].
    + exists w4, out4, c4, s4. split; [exact Hrun4|].
      split; [by rewrite <- (length_fmap flags_of), Hflags|].
      split; [exact Hc4|]. split; [exact Hs4|].
      split; [exact Hq4 | exact Hr4].
Defined.

(** * Further properties of the package *)

(** ** One more lemma per call: outlines, identities, ranges *)

Lemma uint32_is_uint32 (z : Z) : is_uint32 (uint32 z).
Proof. unfold is_uint32, uint32. apply Z.mod_pos_bound. lia. Qed.

Section More.
Context `{!PacketLibrary}.

Ltac preserved_ok :=
  let l := fresh "l" in
  intros l; fields; rewrite ?insert_insert_eq;
  repeat
    (rewrite lookup_insert; case_decide;
     [ first
         [ congruence
         | subst;
           repeat match goal with
             | H : peers ?w !! ?p = Some _ |- context [peers ?w !! ?p] =>
                 rewrite H
             end;
           unfold same_identity; fields; by repeat split ]
     | ]);
  match goal with
  | |- context [peers ?w !! l] =>
      destruct (peers w !! l); [by repeat split | done]
  end.

Ltac untouched_ok :=
  let l := fresh "l" in
  let Hl := fresh "Hl" in
  intros l Hl; fields;
  repeat match goal with
    | H : Conn.Client _ = Some _ |- _ => rewrite H in Hl
    | H : Conn.Server _ = Some _ |- _ => rewrite H in Hl
    end;
  rewrite !lookup_insert_ne by (intros ->; apply Hl; set_solver);
  reflexivity.

Ltac addressed_ok :=
  unfold addressed; eexists _, _; fields;
  split; [eassumption|]; split; [eassumption|]; by repeat split.

Ltac ranges_ok Hrange :=
  repeat match goal with
    | H : peers _ !! _ = Some ?t |- _ =>
        lazymatch goal with
        | _ : is_uint32 (Peer.Seq t) |- _ => fail
        | _ => idtac
        end;
        pose proof (Hrange _ _ H) as [? ?]
    end.

Ltac range_now := first [assumption | apply uint32_is_uint32].

Ltac in_range_ok Hrange :=
  let l := fresh "l" in
  let v := fresh "v" in
  intros l v; fields; rewrite ?insert_insert_eq;
  repeat
    (rewrite lookup_insert; case_decide;
     [ first
         [ congruence
         | intros [= <-]; fields; split; range_now ]
     | ]);
  apply Hrange.

Ltac outline_ok :=
  unfold outline, shape; fields;
  repeat match goal with
    | H : Conn.Client _ = Some _ |- _ => rewrite H
    | H : Conn.Server _ = Some _ |- _ => rewrite H
    end;
  reflexivity.

Ltac more_ok k :=
  split; [outline_ok|];
  split; [preserved_ok|];
  split; [unfold involved; untouched_ok|];
  split; [repeat (constructor; [addressed_ok|]); constructor|];
  let Hrange := fresh "Hrange" in
  intros Hrange; ranges_ok Hrange;
  split;
  [ in_range_ok Hrange
  | repeat (constructor; [unfold numbers_in_range; fields; split; range_now|]);
    constructor ].

Lemma Connect_more (c : ptr) (w w' : world) (a : unit)
    (out : list Synthesis) :
  Connect c w = Returns a w' out →
  ∃ (l : positive) (cn : Conn.t),
    c = Some l ∧ conns w !! l = Some cn ∧
    outline <$> out = shape cn CallConnect ∧
    preserved w w' ∧
    untouched (involved cn CallConnect) w w' ∧
    Forall (addressed w) out ∧
    (in_range w → in_range w' ∧ Forall numbers_in_range out).
Proof.
  unfold Connect.
  simulate.
  all: intros [= <- <- <-].
  all: eexists _, _; split; [reflexivity|]; split; [eassumption|].
  all: more_ok CallConnect.
Qed.

Lemma Send_more (c sender receiver : ptr) (payload : slice byte)
    (w w' : world) (a : unit) (out : list Synthesis) :
  Send c sender receiver payload w = Returns a w' out →
  ∃ (l : positive) (cn : Conn.t),
    c = Some l ∧ conns w !! l = Some cn ∧
    outline <$> out = shape cn (CallSend sender receiver payload) ∧
    preserved w w' ∧
    untouched (involved cn (CallSend sender receiver payload)) w w' ∧
    Forall (addressed w) out ∧
    (in_range w → in_range w' ∧ Forall numbers_in_range out).
Proof.
  unfold Send.
  simulate.
  all: intros [= <- <- <-].
  all: eexists _, _; split; [reflexivity|]; split; [eassumption|].
  all: more_ok CallConnect.
Qed.

Lemma Disconnect_more (c : ptr) (w w' : world) (a : unit)
    (out : list Synthesis) :
  Disconnect c w = Returns a w' out →
  ∃ (l : positive) (cn : Conn.t),
    c = Some l ∧ conns w !! l = Some cn ∧
    outline <$> out = shape cn CallDisconnect ∧
    preserved w w' ∧
    untouched (involved cn CallDisconnect) w w' ∧
    Forall (addressed w) out ∧
    (in_range w → in_range w' ∧ Forall numbers_in_range out).
Proof.
  unfold Disconnect.
  simulate.
  all: intros [= <- <- <-].
  all: eexists _, _; split; [reflexivity|]; split; [eassumption|].
  all: more_ok CallConnect.
Qed.
End More.

(** ** Scripts: what is on the wire, and what is left alone *)

Lemma preserved_refl (w : world) : preserved w w.
Proof. intros l. destruct (peers w !! l); [by repeat split | done]. Qed.

Lemma preserved_trans (w1 w2 w3 : world) :
  preserved w1 w2 → preserved w2 w3 → preserved w1 w3.
Proof.
  intros H12 H23 l. specialize (H12 l). specialize (H23 l).
  destruct (peers w1 !! l), (peers w2 !! l), (peers w3 !! l); try done.
  destruct H12 as (? & ? & ?), H23 as (? & ? & ?).
  repeat split; congruence.
Qed.

Lemma addressed_back (w w1 : world) (e : Synthesis) :
  preserved w w1 → addressed w1 e → addressed w e.
Proof.
  intros Hpre (s & r & Hs & Hr & Heth & Hip & Hsp & Hdp & Hwin).
  pose proof (Hpre (by_sender e)) as Hps.
  pose proof (Hpre (to_receiver e)) as Hpr.
  rewrite Hs in Hps. rewrite Hr in Hpr.
  destruct (peers w !! by_sender e) as [s0|] eqn:Hs0; [|done].
  destruct (peers w !! to_receiver e) as [r0|] eqn:Hr0; [|done].
  destruct Hps as (Hm1 & Hi1 & Hp1), Hpr as (Hm2 & Hi2 & Hp2).
  exists s0, r0. rewrite <- Hm1, <- Hi1, <- Hp1, <- Hm2, <- Hi2, <- Hp2.
  by repeat split.
Qed.

Section ScriptsMore.
Context `{!PacketLibrary}.

Lemma run_call_more (c : ptr) (k : call) (w w' : world) (a : unit)
    (out : list Synthesis) :
  run_call c k w = Returns a w' out →
  ∃ (l : positive) (cn : Conn.t),
    c = Some l ∧ conns w !! l = Some cn ∧
    outline <$> out = shape cn k ∧
    preserved w w' ∧
    untouched (involved cn k) w w' ∧
    Forall (addressed w) out ∧
    (in_range w → in_range w' ∧ Forall numbers_in_range out).
Proof.
  destruct k as [|sender receiver payload|]; cbn [run_call].
  - apply Connect_more.
  - apply Send_more.
  - apply Disconnect_more.
Qed.

(** Everything the per-call lemmas give, for a whole script. *)
Lemma run_more (l : positive) (script : list call) (w w' : world)
    (a : unit) (out : list Synthesis) (cn : Conn.t) :
  run (Some l) script w = Returns a w' out →
  conns w !! l = Some cn →
  outline <$> out = script ≫= shape cn ∧
  preserved w w' ∧
  untouched (script ≫= involved cn) w w' ∧
  Forall (addressed w) out ∧
  (in_range w → in_range w' ∧ Forall numbers_in_range out).
Proof.
  revert w out cn. induction script as [|k script IH]; intros w out cn.
  - intros [= <- <- <-] Hc.
    split; [reflexivity|]. split; [apply preserved_refl|].
    split; [by intros p _|]. split; [constructor|].
    intros Hrange. split; [exact Hrange | constructor].
  - intros Hrun Hc.
    destruct (run_cons_inv _ _ _ _ _ _ _ Hrun)
      as (w1 & o1 & o2 & Hk & Hrest & ->).
    destruct (run_call_more _ _ _ _ _ _ Hk)
      as (l' & cn' & [= <-] & Hc' & Hout1 & Hpre1 & Hunt1 & Haddr1 & Hrng1).
    assert (cn' = cn) as -> by congruence.
    destruct (run_call_frames _ _ _ _ _ _ Hk)
      as (l' & cn' & [= <-] & Hc'' & _ & Happ).
    assert (cn' = cn) as -> by congruence.
    destruct (IH _ _ _ Hrest (appended_lookup _ _ _ _ _ Happ))
      as (Hout2 & Hpre2 & Hunt2 & Haddr2 & Hrng2).
    split; [|split; [|split; [|split]]].
    + rewrite fmap_app, Hout1, Hout2. reflexivity.
    + by eapply preserved_trans.
    + intros p Hp. cbn [mbind list_bind] in Hp.
      rewrite Hunt2, Hunt1; [reflexivity | |].
      * intros Hin. apply Hp. apply elem_of_app. by left.
      * intros Hin. apply Hp. apply elem_of_app. by right.
    + apply Forall_app. split; [exact Haddr1|].
      eapply Forall_impl; [exact Haddr2|].
      intros e. by apply addressed_back.
    + intros Hrange. destruct (Hrng1 Hrange) as (Hrange1 & Hnum1).
      destruct (Hrng2 Hrange1) as (Hrange2 & Hnum2).
      split; [exact Hrange2|]. apply Forall_app. by split.
Qed.

(** X1. The frames of a script are laid down by the script and the
    two pointers of the connection alone: sender, receiver, flags
    and payload layer of every frame are those of [shape], in
    order, whatever the store holds and whether or not pointers
    alias. *)
Theorem frames_follow_script (l : positive) (script : list call)
    (w w' : world) (a : unit) (out : list Synthesis) (cn : Conn.t) :
  run (Some l) script w = Returns a w' out →
  conns w !! l = Some cn →
  outline <$> out = script ≫= shape cn.
Proof. intros Hrun Hc. by destruct (run_more _ _ _ _ _ _ _ Hrun Hc). Qed.

Lemma length_bind_shape (cn : Conn.t) (script : list call) :
  length (script ≫= shape cn) = sum_list (weight <$> script).
Proof.
  induction script as [|k script IH]; [reflexivity|].
  cbn [mbind list_bind fmap list_fmap sum_list]. fold (script ≫= shape cn).
  rewrite length_app, IH. by destruct k.
Qed.

(** X2. A script that returns has added three packets per Connect,
    two per Send and three per Disconnect to the connection, no
    more and no less. *)
Theorem packets_counted (l : positive) (script : list call)
    (w w' : world) (a : unit) (out : list Synthesis) (cn : Conn.t) :
  run (Some l) script w = Returns a w' out →
  conns w !! l = Some cn →
  ∃ cn' : Conn.t,
    conns w' !! l = Some cn' ∧
    length (Conn.Packets cn')
      = (length (Conn.Packets cn) + sum_list (weight <$> script))%nat.
Proof.
  intros Hrun Hc.
  destruct (run_more _ _ _ _ _ _ _ Hrun Hc) as (Hout & _).
  pose proof (run_appended _ _ _ _ _ _ _ Hrun Hc) as Happ.
  eexists. split; [eapply appended_lookup, Happ|].
  cbn [Conn.Packets Conn.with_Packets].
  rewrite length_app, length_fmap, <- (length_fmap outline), Hout.
  by rewrite length_bind_shape.
Qed.

Lemma shape_flags (cn : Conn.t) (script : list call) :
  Forall (λ o, o.1.2 ∈ flag_combinations) (script ≫= shape cn).
Proof.
  induction script as [|k script IH]; [constructor|].
  cbn [mbind list_bind]. apply Forall_app. split; [|exact IH].
  destruct k; repeat constructor; unfold flag_combinations; set_solver.
Qed.

(** X3. No frame of any script carries SYN together with FIN, or no
    flag at all: the flags of every frame are one of SYN, SYN-ACK,
    ACK, FIN-ACK. *)
Theorem flags_are_well_formed (l : positive) (script : list call)
    (w w' : world) (a : unit) (out : list Synthesis) (cn : Conn.t) :
  run (Some l) script w = Returns a w' out →
  conns w !! l = Some cn →
  Forall (λ e, flags_of e ∈ flag_combinations ∧
               (TCP.SYN (tcp_layer e) && TCP.FIN (tcp_layer e) = false))
         out.
Proof.
  intros Hrun Hc.
  destruct (run_more _ _ _ _ _ _ _ Hrun Hc) as (Hout & _).
  pose proof (shape_flags cn script) as Hflags.
  rewrite <- Hout in Hflags. rewrite Forall_fmap in Hflags.
  eapply Forall_impl; [exact Hflags|].
  intros e He. cbn in He. split; [exact He|].
  unfold flags_of, flag_combinations in He.
  rewrite !elem_of_cons, elem_of_nil in He.
  destruct (TCP.SYN (tcp_layer e)), (TCP.FIN (tcp_layer e)),
    (TCP.ACK (tcp_layer e)); try reflexivity.
  all: destruct He as [He|[He|[He|[He|[]]]]]; discriminate He.
Qed.

(** X4. A script never changes the hardware address, network
    address or port of a peer, never adds or removes a peer, leaves
    every peer it does not work on exactly as it was, and changes
    nothing of the connections but the packets of its own. *)
Theorem script_frame_condition (l : positive) (script : list call)
    (w w' : world) (a : unit) (out : list Synthesis) (cn : Conn.t) :
  run (Some l) script w = Returns a w' out →
  conns w !! l = Some cn →
  preserved w w' ∧
  untouched (script ≫= involved cn) w w' ∧
  conns w' =
    <[l:=Conn.with_Packets (Conn.Packets cn ++ (wire <$> out)) cn]>
      (conns w).
Proof.
  intros Hrun Hc.
  destruct (run_more _ _ _ _ _ _ _ Hrun Hc) as (_ & Hpre & Hunt & _).
  split; [exact Hpre|]. split; [exact Hunt|].
  exact (run_appended _ _ _ _ _ _ _ Hrun Hc).
Qed.

(** X5. Every frame of a script is an IPv4 frame (ethertype 0x0800,
    version 4, don't-fragment, identification 1, TTL 64, protocol
    TCP) with window 64000, between the hardware addresses, network
    addresses and ports that its sender and receiver had before the
    script began. *)
Theorem frames_are_addressed (l : positive) (script : list call)
    (w w' : world) (a : unit) (out : list Synthesis) (cn : Conn.t) :
  run (Some l) script w = Returns a w' out →
  conns w !! l = Some cn →
  Forall (addressed w) out.
Proof.
  intros Hrun Hc. by destruct (run_more _ _ _ _ _ _ _ Hrun Hc) as (_&_&_&?&_).
Qed.

(** X6. If every sequence and acknowledgment number of the store is
    a uint32 value before a script, so it is afterwards, and so are
    the numbers in every frame: the wrap-around keeps the counters
    in range. *)
Theorem numbers_stay_uint32 (l : positive) (script : list call)
    (w w' : world) (a : unit) (out : list Synthesis) (cn : Conn.t) :
  run (Some l) script w = Returns a w' out →
  conns w !! l = Some cn →
  in_range w →
  in_range w' ∧ Forall numbers_in_range out.
Proof.
  intros Hrun Hc Hrange.
  destruct (run_more _ _ _ _ _ _ _ Hrun Hc) as (_ & _ & _ & _ & Hrng).
  by apply Hrng.
Qed.
End ScriptsMore.

Lemma Demo_in_range : in_range Demo.world0.
Proof.
  intros l v. unfold Demo.world0. cbn [peers].
  rewrite !lookup_insert_Some, lookup_empty.
  intros [[_ <-]|[_ [[_ <-]|[_ [=]]]]]; split; unfold is_uint32; cbn; lia.
Qed.

Lemma frames_follow_script_witness :
  outline <$> frames_of Run.whole = Demo.script ≫= shape Demo.conn.
Proof.
  apply (@frames_follow_script Wire.lib 1%positive Demo.script Demo.world0
           (world_after Run.whole Demo.world0) tt).
  - vm_compute. reflexivity.
  - reflexivity.
Defined.

Lemma packets_counted_witness :
  ∃ cn' : Conn.t,
    conns (world_after Run.whole Demo.world0) !! 1%positive = Some cn' ∧
    length (Conn.Packets cn') = 8%nat.
Proof.
  apply (@packets_counted Wire.lib 1%positive Demo.script Demo.world0
           (world_after Run.whole Demo.world0) tt (frames_of Run.whole)
           Demo.conn).
  - vm_compute. reflexivity.
  - reflexivity.
Defined.

Lemma flags_are_well_formed_witness :
  Forall (λ e, flags_of e ∈ flag_combinations ∧
               (TCP.SYN (tcp_layer e) && TCP.FIN (tcp_layer e) = false))
         (frames_of Run.whole).
Proof.
  apply (@flags_are_well_formed Wire.lib 1%positive Demo.script Demo.world0
           (world_after Run.whole Demo.world0) tt (frames_of Run.whole)
           Demo.conn).
  - vm_compute. reflexivity.
  - reflexivity.
Defined.

Lemma script_frame_condition_witness :
  preserved Demo.world0 (world_after Run.whole Demo.world0) ∧
  untouched (Demo.script ≫= involved Demo.conn) Demo.world0
    (world_after Run.whole Demo.world0) ∧
  conns (world_after Run.whole Demo.world0) =
    <[1%positive:=
        Conn.with_Packets
          (Conn.Packets Demo.conn ++ (wire <$> frames_of Run.whole))
          Demo.conn]> (conns Demo.world0).
Proof.
  apply (@script_frame_condition Wire.lib 1%positive Demo.script Demo.world0
           (world_after Run.whole Demo.world0) tt (frames_of Run.whole)
           Demo.conn).
  - vm_compute. reflexivity.
  - reflexivity.
Defined.

Lemma frames_are_addressed_witness :
  Forall (addressed Demo.world0) (frames_of Run.whole).
Proof.
  apply (@frames_are_addressed Wire.lib 1%positive Demo.script Demo.world0
           (world_after Run.whole Demo.world0) tt (frames_of Run.whole)
           Demo.conn).
  - vm_compute. reflexivity.
  - reflexivity.
Defined.

Lemma numbers_stay_uint32_witness :
  in_range (world_after Run.whole Demo.world0) ∧
  Forall numbers_in_range (frames_of Run.whole).
Proof.
  apply (@numbers_stay_uint32 Wire.lib 1%positive Demo.script Demo.world0
           (world_after Run.whole Demo.world0) tt (frames_of Run.whole)
           Demo.conn).
  - vm_compute. reflexivity.
  - reflexivity.
  - exact Demo_in_range.
Defined.

(** ** When a call panics, and when it exits *)

Section Outcomes.
Context `{!PacketLibrary}.

Ltac wired_ok :=
  unfold wired, both_peers, conn_at, peer_at;
  repeat match goal with
    | H : _ = _ |- _ => rewrite H
    end;
  cbn [Conn.Client Conn.Server];
  repeat match goal with
    | H : _ = _ |- _ => rewrite H
    end;
  try reflexivity.

Lemma Connect_outcome (c : ptr) (w : world) (r : outcome unit) :
  Connect c w = r →
  match r with
  | Returns _ _ _ => wired c w = true
  | Exits => wired c w = true ∧ refused_bare
  | Panics => wired c w = false
  end.
Proof.
  unfold Connect. simulate.
  all: intros <-.
  all: wired_ok.
  all: split; [wired_ok|]; eexists _, _, _; eassumption.
Qed.

Lemma Disconnect_outcome (c : ptr) (w : world) (r : outcome unit) :
  Disconnect c w = r →
  match r with
  | Returns _ _ _ => wired c w = true
  | Exits => wired c w = true ∧ refused_bare
  | Panics => wired c w = false
  end.
Proof.
  unfold Disconnect. simulate.
  all: intros <-.
  all: wired_ok.
  all: split; [wired_ok|]; eexists _, _, _; eassumption.
Qed.

Lemma Send_outcome (c sender receiver : ptr) (payload : slice byte)
    (w : world) (r : outcome unit) :
  Send c sender receiver payload w = r →
  match r with
  | Returns _ _ _ =>
      both_peers sender receiver w = true ∧ is_Some (conn_at w c)
  | Exits => both_peers sender receiver w = true ∧ refused
  | Panics => both_peers sender receiver w = false ∨ conn_at w c = None
  end.
Proof.
  unfold Send. simulate.
  all: intros <-.
  all: first
    [ left; wired_ok; fail
    | right; wired_ok; fail
    | split; [wired_ok|]; first
        [ wired_ok; by eexists
        | eexists _, _, _, _; eassumption ] ].
Qed.

(** X7. Connect panics exactly when the connection pointer, the
    client pointer or the server pointer of the connection is nil:
    on a connection with both peers it returns or exits, and it
    never gets past a nil pointer. *)
Theorem Connect_panics_iff_unwired (c : ptr) (w : world) :
  Connect c w = Panics ↔ wired c w = false.
Proof.
  split; [apply (Connect_outcome c w Panics)|].
  intros Hw. destruct (Connect c w) as [a w' out| |] eqn:Hr;
    [|exfalso|reflexivity];
    apply Connect_outcome in Hr; cbn in Hr; [|destruct Hr as [Hr _]];
    congruence.
Qed.

(** X8. Disconnect panics exactly when the connection pointer, the
    client pointer or the server pointer of the connection is nil. *)
Theorem Disconnect_panics_iff_unwired (c : ptr) (w : world) :
  Disconnect c w = Panics ↔ wired c w = false.
Proof.
  split; [apply (Disconnect_outcome c w Panics)|].
  intros Hw. destruct (Disconnect c w) as [a w' out| |] eqn:Hr;
    [|exfalso|reflexivity];
    apply Disconnect_outcome in Hr; cbn in Hr; [|destruct Hr as [Hr _]];
    congruence.
Qed.

(** X9. Send panics whenever the sender or the receiver pointer is
    nil; it returns only if sender, receiver and connection are all
    three objects; and when it panics, one of the three was not.
    (With a nil connection and two peers it reaches the library
    first, so it may also exit.) *)
Theorem Send_needs_three_objects (c sender receiver : ptr)
    (payload : slice byte) (w : world) :
  (both_peers sender receiver w = false →
   Send c sender receiver payload w = Panics) ∧
  (Send c sender receiver payload w = Panics →
   both_peers sender receiver w = false ∨ conn_at w c = None) ∧
  (∀ (a : unit) (w' : world) (out : list Synthesis),
     Send c sender receiver payload w = Returns a w' out →
     both_peers sender receiver w = true ∧ is_Some (conn_at w c)).
Proof.
  split; [|split].
  - intros Hb.
    destruct (Send c sender receiver payload w) as [a w' out| |] eqn:Hr;
      [exfalso|exfalso|reflexivity];
      apply Send_outcome in Hr; cbn in Hr; destruct Hr as [Hr _];
      congruence.
  - apply (Send_outcome c sender receiver payload w Panics).
  - intros a w' out.
    apply (Send_outcome c sender receiver payload w (Returns a w' out)).
Qed.


End Outcomes.


(** ** Sequence numbers over a whole script *)

Lemma uint32_add_l (a b : Z) : uint32 (uint32 a + b) = uint32 (a + b).
Proof. unfold uint32. apply Zplus_mod_idemp_l. Qed.

Lemma uint32_id (z : Z) : is_uint32 z → uint32 z = z.
Proof. unfold is_uint32, uint32. intros Hz. by apply Z.mod_small. Qed.

Section Numbers.
Context `{!PacketLibrary}.

(** One call between two distinct peers: where both sequence
    numbers are afterwards, and that each peer then acknowledges
    the sequence number of the other. *)
Lemma run_call_between (l lc ls : positive) (k : call) (w w' : world)
    (a : unit) (out : list Synthesis) (cn : Conn.t) (c0 s0 : Peer.t) :
  run_call (Some l) k w = Returns a w' out →
  conns w !! l = Some cn →
  Conn.Client cn = Some lc → Conn.Server cn = Some ls →
  lc ≠ ls →
  between lc ls k →
  peers w !! lc = Some c0 → peers w !! ls = Some s0 →
  ∃ c' s' : Peer.t,
    peers w' !! lc = Some c' ∧ peers w' !! ls = Some s' ∧
    (Peer.Seq c' = Peer.Seq c0 ∧ advance lc k = 0 ∨
     Peer.Seq c' = uint32 (Peer.Seq c0 + advance lc k)) ∧
    (Peer.Seq s' = Peer.Seq s0 ∧ advance ls k = 0 ∨
     Peer.Seq s' = uint32 (Peer.Seq s0 + advance ls k)) ∧
    Peer.Ack c' = Peer.Seq s' ∧ Peer.Ack s' = Peer.Seq c'.
Proof.
  intros Hrun Hc HC HS Hne Hk Hlc Hls.
  destruct k as [|sender receiver payload|]; cbn [run_call] in Hrun.
  - destruct (Connect_effect _ _ _ _ _ _ _ _ _ _ Hrun Hc HC HS Hne Hlc Hls)
      as (e1 & e2 & e3 & c' & s' & _ & _ & _ & _ & Hc' & Hs'
          & (_ & _ & _ & Hcs & Hca) & (_ & _ & _ & Hss & Hsa) & _).
    exists c', s'. cbn [advance].
    repeat split; try assumption; try (by right); congruence.
  - destruct Hk as [[-> ->]|[-> ->]]; cbn [advance].
    + destruct (Send_effect _ _ _ _ _ _ _ _ _ _ _ Hrun Hc Hlc Hls)
        as (e1 & e2 & c' & _ & _ & _ & _ & _ & _ & _ & _ & Hc' & Hcs & _
            & Hdiff).
      destruct (Hdiff Hne) as (_ & s' & Hs' & (_&_&_& Hss & Hsa)
                               & (_&_&_& _ & Hca) & _).
      exists c', s'. repeat case_decide; try congruence.
      repeat split; try assumption; first [by right | by left | congruence].
    + assert (ls ≠ lc) as Hne' by congruence.
      destruct (Send_effect _ _ _ _ _ _ _ _ _ _ _ Hrun Hc Hls Hlc)
        as (e1 & e2 & s' & _ & _ & _ & _ & _ & _ & _ & _ & Hs' & Hss & _
            & Hdiff).
      destruct (Hdiff Hne') as (_ & c' & Hc' & (_&_&_& Hcs & Hca)
                                & (_&_&_& _ & Hsa) & _).
      exists c', s'. repeat case_decide; try congruence.
      repeat split; try assumption; first [by right | by left | congruence].
  - destruct (Disconnect_effect _ _ _ _ _ _ _ _ _ _ Hrun Hc HC HS Hne
                Hlc Hls)
      as (e1 & e2 & e3 & c' & s' & _ & _ & _ & _ & Hc' & Hs'
          & (_ & _ & _ & Hcs & Hca) & (_ & _ & _ & Hss & Hsa) & _).
    exists c', s'. cbn [advance].
    repeat split; try assumption; try (by right); congruence.
Qed.

Lemma advanced_is_uint32 (n n' d : Z) :
  is_uint32 n →
  n' = n ∧ d = 0 ∨ n' = uint32 (n + d) →
  is_uint32 n' ∧ n' = uint32 (n + d).
Proof.
  intros Hn [ [-> ->] | -> ].
  - split; [exact Hn|]. by rewrite Z.add_0_r, uint32_id.
  - split; [apply uint32_is_uint32 | reflexivity].
Qed.

Lemma run_between (l lc ls : positive) (script : list call) (w w' : world)
    (a : unit) (out : list Synthesis) (cn : Conn.t) (c0 s0 : Peer.t) :
  run (Some l) script w = Returns a w' out →
  conns w !! l = Some cn →
  Conn.Client cn = Some lc → Conn.Server cn = Some ls →
  lc ≠ ls →
  Forall (between lc ls) script →
  peers w !! lc = Some c0 → peers w !! ls = Some s0 →
  ∃ c' s' : Peer.t,
    peers w' !! lc = Some c' ∧ peers w' !! ls = Some s' ∧
    (is_uint32 (Peer.Seq c0) →
     Peer.Seq c' = uint32 (Peer.Seq c0 + advances lc script)) ∧
    (is_uint32 (Peer.Seq s0) →
     Peer.Seq s' = uint32 (Peer.Seq s0 + advances ls script)) ∧
    (script ≠ [] →
     Peer.Ack c' = Peer.Seq s' ∧ Peer.Ack s' = Peer.Seq c').
Proof.
  revert w out cn c0 s0.
  induction script as [|k script IH]; intros w out cn c0 s0.
  - intros [= <- <- <-] _ _ _ _ _ Hlc Hls. exists c0, s0.
    unfold advances. cbn [fmap list_fmap foldr]. rewrite !Z.add_0_r.
    split; [exact Hlc|]. split; [exact Hls|].
    split; [intros Hr; by rewrite uint32_id|].
    split; [intros Hr; by rewrite uint32_id|]. done.
  - intros Hrun Hc HC HS Hne Hall Hlc Hls.
    apply Forall_cons in Hall as [Hk Hall].
    destruct (run_cons_inv _ _ _ _ _ _ _ Hrun)
      as (w1 & o1 & o2 & Hk1 & Hrest & ->).
    destruct (run_call_between _ _ _ _ _ _ _ _ _ _ _ Hk1 Hc HC HS Hne Hk
                Hlc Hls)
      as (c1 & s1 & Hc1 & Hs1 & Hcs1 & Hss1 & Hca1 & Hsa1).
    destruct (run_call_frames _ _ _ _ _ _ Hk1)
      as (l' & cn' & [= <-] & Hc' & _ & Happ).
    assert (cn' = cn) as -> by congruence.
    destruct (IH _ _ _ _ _ Hrest (appended_lookup _ _ _ _ _ Happ) HC HS Hne
                Hall Hc1 Hs1)
      as (c' & s' & Hc2 & Hs2 & Hcs2 & Hss2 & Hsync).
    exists c', s'. split; [exact Hc2|]. split; [exact Hs2|].
    unfold advances. cbn [fmap list_fmap foldr].
    fold (advances lc script). fold (advances ls script).
    split; [|split].
    + intros Hr. destruct (advanced_is_uint32 _ _ _ Hr Hcs1) as [Hr1 Heq].
      by rewrite (Hcs2 Hr1), Heq, uint32_add_l, Z.add_assoc.
    + intros Hr. destruct (advanced_is_uint32 _ _ _ Hr Hss1) as [Hr1 Heq].
      by rewrite (Hss2 Hr1), Heq, uint32_add_l, Z.add_assoc.
    + intros _. destruct script as [|k' script'].
      * injection Hrest as <- <-. by simplify_eq.
      * by apply Hsync.
Qed.

(** X11. Over a script between the two distinct peers of a
    connection, the sequence number of each peer ends at its start
    plus one for every Connect and Disconnect plus the lengths of
    the payloads that peer sent, modulo 2^32. *)
Theorem sequence_numbers_add_up (l lc ls : positive) (script : list call)
    (w w' : world) (a : unit) (out : list Synthesis) (cn : Conn.t)
    (c0 s0 : Peer.t) :
  run (Some l) script w = Returns a w' out →
  conns w !! l = Some cn →
  Conn.Client cn = Some lc → Conn.Server cn = Some ls →
  lc ≠ ls →
  Forall (between lc ls) script →
  peers w !! lc = Some c0 → peers w !! ls = Some s0 →
  is_uint32 (Peer.Seq c0) → is_uint32 (Peer.Seq s0) →
  ∃ c' s' : Peer.t,
    peers w' !! lc = Some c' ∧ peers w' !! ls = Some s' ∧
    Peer.Seq c' = uint32 (Peer.Seq c0 + advances lc script) ∧
    Peer.Seq s' = uint32 (Peer.Seq s0 + advances ls script).
Proof.
  intros Hrun Hc HC HS Hne Hall Hlc Hls Hrc Hrs.
  destruct (run_between _ _ _ _ _ _ _ _ _ _ _ Hrun Hc HC HS Hne Hall
              Hlc Hls)
    as (c' & s' & Hc' & Hs' & Hcs & Hss & _).
  exists c', s'. repeat split; auto.
Qed.

(** X12. After any nonempty script between the two distinct peers
    of a connection, each peer's acknowledgment number is the
    sequence number of the other. *)
Theorem acknowledgments_in_step (l lc ls : positive) (script : list call)
    (w w' : world) (a : unit) (out : list Synthesis) (cn : Conn.t)
    (c0 s0 : Peer.t) :
  run (Some l) script w = Returns a w' out →
  conns w !! l = Some cn →
  Conn.Client cn = Some lc → Conn.Server cn = Some ls →
  lc ≠ ls →
  Forall (between lc ls) script →
  peers w !! lc = Some c0 → peers w !! ls = Some s0 →
  script ≠ [] →
  ∃ c' s' : Peer.t,
    peers w' !! lc = Some c' ∧ peers w' !! ls = Some s' ∧
    Peer.Ack c' = Peer.Seq s' ∧ Peer.Ack s' = Peer.Seq c'.
Proof.
  intros Hrun Hc HC HS Hne Hall Hlc Hls Hnil.
  destruct (run_between _ _ _ _ _ _ _ _ _ _ _ Hrun Hc HC HS Hne Hall
              Hlc Hls)
    as (c' & s' & Hc' & Hs' & _ & _ & Hsync).
  exists c', s'. destruct (Hsync Hnil). by repeat split.
Qed.
End Numbers.

Lemma Demo_between : Forall (between 1 2) Demo.script.
Proof. repeat constructor. Qed.

Lemma sequence_numbers_add_up_witness :
  ∃ c' s' : Peer.t,
    peers (world_after Run.whole Demo.world0) !! 1%positive = Some c' ∧
    peers (world_after Run.whole Demo.world0) !! 2%positive = Some s' ∧
    Peer.Seq c' = 105 ∧ Peer.Seq s' = 502.
Proof.
  apply (@sequence_numbers_add_up Wire.lib 1%positive 1%positive 2%positive
           Demo.script Demo.world0 (world_after Run.whole Demo.world0) tt
           (frames_of Run.whole) Demo.conn Demo.client Demo.server).
  - vm_compute. reflexivity.
  - reflexivity.
  - reflexivity.
  - reflexivity.
  - discriminate.
  - exact Demo_between.
  - reflexivity.
  - reflexivity.
  - unfold is_uint32. cbn. lia.
  - unfold is_uint32. cbn. lia.
Defined.

Lemma acknowledgments_in_step_witness :
  ∃ c' s' : Peer.t,
    peers (world_after Run.whole Demo.world0) !! 1%positive = Some c' ∧
    peers (world_after Run.whole Demo.world0) !! 2%positive = Some s' ∧
    Peer.Ack c' = Peer.Seq s' ∧ Peer.Ack s' = Peer.Seq c'.
Proof.
  apply (@acknowledgments_in_step Wire.lib 1%positive 1%positive 2%positive
           Demo.script Demo.world0 (world_after Run.whole Demo.world0) tt
           (frames_of Run.whole) Demo.conn Demo.client Demo.server).
  - vm_compute. reflexivity.
  - reflexivity.
  - reflexivity.
  - reflexivity.
  - discriminate.
  - exact Demo_between.
  - reflexivity.
  - reflexivity.
  - discriminate.
Defined.

(** ** One peer at both ends *)

Section OnePeer.
Context `{!PacketLibrary}.

(** X13. Connect on a connection whose client and server are the
    same peer sends three frames from that peer to itself; both
    increments hit the one sequence number, which ends two above
    its start, and the second and third frame acknowledge their own
    sequence number. *)
Theorem Connect_with_one_peer (l p : positive) (w w' : world) (a : unit)
    (out : list Synthesis) (cn : Conn.t) (v : Peer.t) :
  Connect (Some l) w = Returns a w' out →
  conns w !! l = Some cn →
  Conn.Client cn = Some p → Conn.Server cn = Some p →
  peers w !! p = Some v →
  outline <$> out = shape cn CallConnect ∧
  numbers_of <$> out =
    [(Peer.Seq v, 0);
     (uint32 (Peer.Seq v + 1), uint32 (Peer.Seq v + 1));
     (uint32 (uint32 (Peer.Seq v + 1) + 1),
      uint32 (uint32 (Peer.Seq v + 1) + 1))] ∧
  ∃ v' : Peer.t,
    peers w' !! p = Some v' ∧
    in_state v' false true false (uint32 (uint32 (Peer.Seq v + 1) + 1))
             (uint32 (uint32 (Peer.Seq v + 1) + 1)).
Proof.
  intros Hrun Hc HC HS Hp. revert Hrun. unfold Connect.
  simulate.
  intros [= <- <- <-].
  split; [unfold outline, shape; fields; by rewrite HC, HS|].
  split; [unfold numbers_of; fields; reflexivity|].
  eexists. split; [find_peer|]. unfold in_state. fields. by repeat split.
Qed.
End OnePeer.

Lemma Connect_with_one_peer_witness :
  outline <$> frames_of (@Connect Wire.lib (Some 1%positive)
                           Demo.world_one_peer)
    = [(Some 1%positive, Some 1%positive, (true, false, false), None);
       (Some 1%positive, Some 1%positive, (true, true, false), None);
       (Some 1%positive, Some 1%positive, (false, true, false), None)] ∧
  numbers_of <$> frames_of (@Connect Wire.lib (Some 1%positive)
                              Demo.world_one_peer)
    = [(100, 0); (101, 101); (102, 102)] ∧
  ∃ v' : Peer.t,
    peers (world_after (@Connect Wire.lib (Some 1%positive)
                          Demo.world_one_peer) Demo.world_one_peer)
      !! 1%positive = Some v' ∧
    in_state v' false true false 102 102.
Proof.
  apply (@Connect_with_one_peer Wire.lib 1%positive 1%positive
           Demo.world_one_peer
           (world_after (@Connect Wire.lib (Some 1%positive)
                           Demo.world_one_peer) Demo.world_one_peer)
           tt
           (frames_of (@Connect Wire.lib (Some 1%positive)
                         Demo.world_one_peer))
           (Conn.mk (Some 1%positive) (Some 1%positive)
                    (PhaseOptions.mk None None None) [])
           Demo.client).
  - vm_compute. reflexivity.
  - reflexivity.
  - reflexivity.
  - reflexivity.
  - reflexivity.
Defined.

(** * The first revision of the package *)

Lemma insert_shadow {A : Type} (m : gmap positive A) (i j : positive)
    (a b c : A) :
  <[i:=a]> (<[j:=b]> (<[i:=c]> m)) = <[i:=a]> (<[j:=b]> m).
Proof.
  destruct (decide (i = j)) as [->|Hne].
  - by rewrite !insert_insert_eq.
  - by rewrite (insert_insert_ne m j i), insert_insert_eq.
Qed.

Section EarlierFacts.
Context `{!PacketLibrary}.

Ltac same_outcome :=
  repeat match goal with
    | H : SerializeLayers _ _ _ _ = _ |- _ => revert H
    end;
  fields; cbn [PhaseOptions.SYN PhaseOptions.SYNACK PhaseOptions.ACK];
  cbv [Peer.with_Seq Peer.with_Ack Peer.with_Options Peer.with_SYN
       Peer.with_ACK Peer.with_FIN Conn.with_Packets
       Peer.MAC Peer.IP Peer.Port Peer.Seq Peer.Ack Peer.Flags Peer.Options
       Flags.SYN Flags.ACK Flags.FIN
       Conn.Client Conn.Server Conn.Options Conn.Packets];
  repeat first [rewrite insert_insert_eq | rewrite insert_shadow]; intros;
  first [reflexivity | congruence].

(** X14. For a connection without options between peers without
    options, [connect] of the first revision and [Connect] do the
    same: the same frames, the same store, the same exit or panic.
    Adding the option sets changed nothing for connections that do
    not use them. *)
Theorem connect_is_Connect_without_options (c : ptr) (w : world) :
  without_options c w →
  Earlier.connect c w = Connect c w.
Proof.
  intros Hplain. unfold Earlier.connect, Earlier.createSegment, Connect.
  unfold without_options, conn_at, peer_at in Hplain.
  destruct c as [l|]; [|reflexivity].
  destruct (conns w !! l) as [cn|] eqn:Hc; [|simulate; reflexivity].
  destruct (Hplain cn eq_refl) as (Hopts & HoC & HoS). clear Hplain.
  destruct cn as [pc ps opts pk]. cbn in Hopts, HoC, HoS. subst opts.
  destruct pc as [lc|]; [|simulate; reflexivity].
  destruct (peers w !! lc) as [c0|] eqn:Hlc; [|simulate; reflexivity].
  pose proof (HoC c0 eq_refl) as Hc0. destruct c0. cbn in Hc0. subst.
  clear HoC.
  destruct ps as [ls|]; [|simulate; reflexivity].
  destruct (decide (lc = ls)) as [->|Hne].
  { clear HoS. simulate. all: same_outcome. }
  destruct (peers w !! ls) as [s0|] eqn:Hls; [|simulate; reflexivity].
  pose proof (HoS s0 eq_refl) as Hs0. destruct s0. cbn in Hs0. subst.
  clear HoS.
  simulate. all: same_outcome.
Qed.
End EarlierFacts.

Lemma world_plain_without_options : without_options (Some 1%positive) world_plain.
Proof.
  intros cn Hcn. vm_compute in Hcn. injection Hcn as <-.
  split; [reflexivity|].
  split; intros v Hv; vm_compute in Hv; by injection Hv as <-.
Qed.

Lemma connect_is_Connect_without_options_witness :
  @Earlier.connect Wire.lib (Some 1%positive) world_plain
    = @Connect Wire.lib (Some 1%positive) world_plain.
Proof.
  apply (@connect_is_Connect_without_options Wire.lib).
  exact world_plain_without_options.
Defined.

(** * Package rawsocket: htons *)

Lemma lor_bytes (hi lo : Z) :
  0 ≤ hi < 2 ^ 8 → 0 ≤ lo < 2 ^ 8 →
  Z.lor lo (uint16 (Z.shiftl hi 8)) = hi * 2 ^ 8 + lo.
Proof.
  intros Hhi Hlo. unfold uint16.
  rewrite Z.shiftl_mul_pow2 by lia.
  rewrite (Z.mod_small (hi * 2 ^ 8)) by lia.
  rewrite <- Z.lxor_lor, <- Z.add_nocarry_lxor, Z.add_comm; try reflexivity.
  all: apply Z.bits_inj'; intros n Hn; rewrite Z.land_spec, Z.bits_0.
  all: destruct (decide (n < 8)).
  all: try (rewrite (Z.mul_pow2_bits_low hi) by lia; apply andb_false_r).
  all: rewrite <- (Z.mod_small lo (2 ^ 8)) by lia.
  all: rewrite Z.mod_pow2_bits_high by lia; reflexivity.
Qed.

Lemma htons_run (x : Z) :
  htons x = Some (to_byte x * 2 ^ 8 + to_byte (Z.shiftr x 8)).
Proof.
  unfold htons, LittleEndian.PutUint16, BigEndian.Uint16.
  cbn [replicate length mbind option_bind]. rewrite decide_True by lia.
  cbn [mbind option_bind insert list_insert lookup list_lookup].
  f_equal. apply lor_bytes; unfold to_byte; apply Z.mod_pos_bound; lia.
Qed.

Lemma htons_uint16 (x : Z) :
  is_uint16 x →
  htons x = Some (x mod 256 * 256 + x / 256).
Proof.
  intros Hx. rewrite htons_run. unfold to_byte, is_uint16 in *.
  rewrite Z.shiftr_div_pow2 by lia.
  rewrite (Z.mod_small (x / 2 ^ 8)); [reflexivity|].
  split; [apply Z.div_pos; lia|]. apply Z.div_lt_upper_bound; lia.
Qed.

(** X15. htons never fails, and it exchanges the two bytes of a
    uint16: the value with high byte [hi] and low byte [lo] becomes
    the value with high byte [lo] and low byte [hi]. *)
Theorem htons_swaps_bytes (hi lo : Z) :
  0 ≤ hi < 256 → 0 ≤ lo < 256 →
  htons (hi * 256 + lo) = Some (lo * 256 + hi).
Proof.
  intros Hhi Hlo. rewrite htons_uint16 by (unfold is_uint16; lia).
  rewrite (Z.add_comm (hi * 256)), Z.mod_add, Z.div_add by lia.
  by rewrite (Z.mod_small lo), (Z.div_small lo), Z.add_0_l by lia.
Qed.

(** X16. htons is its own inverse on uint16, and its result is a
    uint16: converting twice gives the argument back. *)
Theorem htons_involutive (x : Z) :
  is_uint16 x →
  ∃ y : Z, htons x = Some y ∧ is_uint16 y ∧ htons y = Some x.
Proof.
  intros Hx. unfold is_uint16 in *.
  assert (0 ≤ x mod 256 < 256) by (apply Z.mod_pos_bound; lia).
  assert (0 ≤ x / 256 < 256)
    by (split; [apply Z.div_pos; lia | apply Z.div_lt_upper_bound; lia]).
  exists (x mod 256 * 256 + x / 256).
  split; [by apply htons_uint16|]. split; [lia|].
  rewrite htons_uint16 by (unfold is_uint16; lia). f_equal.
  rewrite (Z.add_comm (x mod 256 * 256)), Z.mod_add, Z.div_add by lia.
  rewrite (Z.mod_small (x / 256)), (Z.div_small (x / 256)) by lia.
  pose proof (Z.div_mod x 256). lia.
Qed.

Lemma htons_swaps_bytes_witness : htons (8 * 256 + 6) = Some (6 * 256 + 8).
Proof. apply (htons_swaps_bytes 8 6); lia. Defined.

Lemma htons_involutive_witness :
  ∃ y : Z, htons 2048 = Some y ∧ is_uint16 y ∧ htons y = Some 2048.
Proof. apply (htons_involutive 2048). unfold is_uint16. lia. Defined.

(** * Package pcap: the Listener *)

Module PcapFacts.
Import Pcap.

Lemma int_id (z : Z) : is_int z → int z = z.
Proof.
  unfold is_int, int. intros Hz.
  rewrite Z.mod_small by lia. lia.
Qed.

Section Turns.
Variable l : Listener.
Variable h : Handle.
Variable to : handler.
Variable ticker stop : bool.

Lemma turns_limit (count : Z) (schedule : list ready) :
  0 < MaxPkts l → is_int (MaxPkts l) →
  0 ≤ count < MaxPkts l →
  let '(trace, st) := turns l h to ticker stop count schedule in
  count + Z.of_nat (length (omap handled trace)) ≤ MaxPkts l ∧
  (count + Z.of_nat (length (omap handled trace)) = MaxPkts l →
   st = Returned).
Proof.
  intros Hpos Hint. revert count.
  induction schedule as [|[[p|]| |] schedule IH]; intros count Hcount;
    cbn [turns].
  - cbn. lia.
  - rewrite int_id by (unfold is_int in *; lia).
    replace (0 <? MaxPkts l) with true by (symmetry; apply Z.ltb_lt; lia).
    cbn [andb].
    destruct (Z.eqb_spec (count + 1) (MaxPkts l)) as [Heq|Hne].
    + cbn. split; [lia | done].
    + specialize (IH (count + 1) ltac:(lia)).
      destruct (turns l h to ticker stop (count + 1) schedule)
        as [trace st].
      change (omap handled (CallHandlePacket to p :: trace))
        with (p :: omap handled trace).
      cbn [length]. rewrite Nat2Z.inj_succ.
      destruct IH as [Hle Hret]. split; [lia|]. intros Heq. apply Hret. lia.
  - cbn. lia.
  - destruct ticker.
    + destruct (TimerHandler l) as [th|]; [|cbn; lia].
      specialize (IH count Hcount).
      destruct (turns l h to true stop count schedule) as [trace st].
      exact IH.
    + apply IH, Hcount.
  - destruct stop; [cbn; lia|]. apply IH, Hcount.
Qed.

Lemma turns_in_order (count : Z) (schedule : list ready) :
  let '(trace, st) := turns l h to ticker stop count schedule in
  omap handled trace `prefix_of` omap delivered schedule ∧
  (st = Waiting → omap handled trace = omap delivered schedule).
Proof.
  revert count.
  induction schedule as [|[[p|]| |] schedule IH]; intros count;
    cbn [turns].
  - done.
  - destruct ((0 <? MaxPkts l) && (int (count + 1) =? MaxPkts l)).
    + cbn. split; [|done]. by apply prefix_cons, prefix_nil.
    + specialize (IH (int (count + 1))).
      destruct (turns l h to ticker stop (int (count + 1)) schedule)
        as [trace st].
      destruct IH as [Hpre Hall]. cbn. split; [by apply prefix_cons|].
      intros Hw. by rewrite Hall.
  - cbn. split; [apply prefix_nil | done].
  - destruct ticker.
    + destruct (TimerHandler l) as [th|].
      * specialize (IH count).
        destruct (turns l h to true stop count schedule) as [trace st].
        exact IH.
      * cbn. split; [apply prefix_nil | done].
    + apply IH.
  - destruct stop; [|apply IH]. cbn. split; [apply prefix_nil | done].
Qed.

Lemma turns_close (count : Z) (schedule : list ready) :
  let '(trace, st) := turns l h to ticker stop count schedule in
  match st with
  | Returned | Panicked =>
      ∃ trace', trace = trace' ++ [CallClose h] ∧
                Forall (λ e, is_Close e = false) trace'
  | _ => Forall (λ e, is_Close e = false) trace
  end.
Proof.
  revert count.
  induction schedule as [|[[p|]| |] schedule IH]; intros count;
    cbn [turns].
  - constructor.
  - destruct ((0 <? MaxPkts l) && (int (count + 1) =? MaxPkts l)).
    + exists [CallHandlePacket to p]. split; [done|]. by repeat constructor.
    + specialize (IH (int (count + 1))).
      destruct (turns l h to ticker stop (int (count + 1)) schedule)
        as [trace []].
      1,3: destruct IH as (trace' & -> & Hno);
        exists (CallHandlePacket to p :: trace');
        split; [done | by constructor].
      all: by constructor.
  - exists []. split; [done | constructor].
  - destruct ticker.
    + destruct (TimerHandler l) as [th|].
      * specialize (IH count).
        destruct (turns l h to true stop count schedule) as [trace []].
        1,3: destruct IH as (trace' & -> & Hno);
          exists (CallHandleTimer th :: trace');
          split; [done | by constructor].
        all: by constructor.
      * exists []. split; [done | constructor].
    + apply IH.
  - destruct stop; [|apply IH]. exists []. split; [done | constructor].
Qed.

Lemma turns_panics (count : Z) (schedule : list ready) :
  (ticker = true → is_Some (TimerHandler l)) →
  (turns l h to ticker stop count schedule).2 ≠ Panicked.
Proof.
  intros Hth. revert count.
  induction schedule as [|[[p|]| |] schedule IH]; intros count;
    cbn [turns]; try done.
  - destruct ((0 <? MaxPkts l) && (int (count + 1) =? MaxPkts l));
      [done|].
    specialize (IH (int (count + 1))).
    by destruct (turns l h to ticker stop (int (count + 1)) schedule).
  - destruct ticker; [|apply IH].
    destruct (Hth eq_refl) as [th ->].
    specialize (IH count).
    by destruct (turns l h to true stop count schedule).
  - destruct stop; [done | apply IH].
Qed.

Lemma turns_status (count : Z) (schedule : list ready) :
  (ticker = true → is_Some (TimerHandler l)) →
  (turns l h to ticker stop count schedule).2 = Returned ∨
  (turns l h to ticker stop count schedule).2 = Waiting.
Proof.
  intros Hth. revert count.
  induction schedule as [|[[p|]| |] schedule IH]; intros count;
    cbn [turns]; auto.
  - destruct ((0 <? MaxPkts l) && (int (count + 1) =? MaxPkts l));
      [by left|].
    specialize (IH (int (count + 1))).
    by destruct (turns l h to ticker stop (int (count + 1)) schedule).
  - destruct ticker; [|apply IH].
    destruct (Hth eq_refl) as [th ->].
    specialize (IH count).
    by destruct (turns l h to true stop count schedule).
  - destruct stop; [by left | apply IH].
Qed.

Lemma turns_return (count : Z) (schedule : list ready) :
  MaxPkts l ≤ 0 → stop = false →
  (turns l h to ticker stop count schedule).2 = Returned →
  Packet None ∈ schedule.
Proof.
  intros Hmax ->. revert count.
  induction schedule as [|[[p|]| |] schedule IH]; intros count;
    cbn [turns]; try done.
  - replace (0 <? MaxPkts l) with false
      by (symmetry; apply Z.ltb_ge; lia).
    cbn [andb]. specialize (IH (int (count + 1))).
    destruct (turns l h to ticker false (int (count + 1)) schedule).
    intros Hr. apply elem_of_cons. right. by apply IH.
  - intros _. apply elem_of_cons. by left.
  - destruct ticker.
    + destruct (TimerHandler l) as [th|]; [|done].
      specialize (IH count).
      destruct (turns l h to true false count schedule).
      intros Hr. apply elem_of_cons. right. by apply IH.
    + intros Hr. apply elem_of_cons. right. by eapply IH.
  - intros Hr. apply elem_of_cons. right. by eapply IH.
Qed.

End Turns.

(** X17. With a packet limit, Loop hands at most [MaxPkts] packets
    to the packet handler, and once it has handed over that many it
    has returned. *)
Theorem Loop_respects_MaxPkts (l : Listener) (schedule : list ready) :
  0 < MaxPkts l → is_int (MaxPkts l) →
  Z.of_nat (length (omap handled (Loop l schedule).1)) ≤ MaxPkts l ∧
  (Z.of_nat (length (omap handled (Loop l schedule).1)) = MaxPkts l →
   (Loop l schedule).2 = Returned).
Proof.
  intros Hpos Hint. unfold Loop.
  destruct (PacketHandler l) as [to|]; [|cbn; lia].
  destruct (pcapHandle l) as [h|]; [|cbn; lia].
  destruct ((0 <? Timer l) && bool_decide (TimerHandler l = None));
    [cbn; lia|].
  pose proof (turns_limit l h to (0 <? Timer l) (0 <? MaxTime l) 0 schedule
                Hpos Hint ltac:(lia)) as Hlim.
  destruct (turns l h to (0 <? Timer l) (0 <? MaxTime l) 0 schedule).
  cbn [fst snd]. by rewrite !Z.add_0_l in Hlim.
Qed.

(** X18. The packets Loop hands to the packet handler are the
    packets it received, in the order received, up to the point
    where it stopped: none is skipped, repeated or reordered, and
    while Loop is still waiting every packet received has been
    handed over. *)
Theorem Loop_handles_in_order (l : Listener) (schedule : list ready) :
  omap handled (Loop l schedule).1 `prefix_of` omap delivered schedule ∧
  ((Loop l schedule).2 = Waiting →
   omap handled (Loop l schedule).1 = omap delivered schedule).
Proof.
  unfold Loop.
  destruct (PacketHandler l) as [to|]; [|split; [apply prefix_nil | done]].
  destruct (pcapHandle l) as [h|]; [|split; [apply prefix_nil | done]].
  destruct ((0 <? Timer l) && bool_decide (TimerHandler l = None));
    [split; [apply prefix_nil | done]|].
  pose proof (turns_in_order l h to (0 <? Timer l) (0 <? MaxTime l) 0
                schedule) as Hord.
  by destruct (turns l h to (0 <? Timer l) (0 <? MaxTime l) 0 schedule).
Qed.

(** X19. Loop closes the handle exactly once, as the last thing it
    does, when it returns; it does not close it while it waits, nor
    when the process ends in [log.Fatal]. *)
Theorem Loop_closes_on_return (l : Listener) (schedule : list ready) :
  match (Loop l schedule).2 with
  | Returned =>
      ∃ h trace',
        pcapHandle l = Some h ∧
        (Loop l schedule).1 = trace' ++ [CallClose h] ∧
        Forall (λ e, is_Close e = false) trace'
  | Exited _ | Waiting =>
      Forall (λ e, is_Close e = false) (Loop l schedule).1
  | Panicked => True
  end.
Proof.
  unfold Loop.
  destruct (PacketHandler l) as [to|]; [|constructor].
  destruct (pcapHandle l) as [h|]; [|done].
  destruct ((0 <? Timer l) && bool_decide (TimerHandler l = None));
    [constructor|].
  pose proof (turns_close l h to (0 <? Timer l) (0 <? MaxTime l) 0
                schedule) as Hclose.
  destruct (turns l h to (0 <? Timer l) (0 <? MaxTime l) 0 schedule)
    as [trace []]; cbn [fst snd]; try done.
  destruct Hclose as (trace' & -> & Hno). by exists h, trace'.
Qed.

(** X20. Loop panics exactly when it has a packet handler but no
    handle: a missing timer handler is caught before the first
    tick, so no handler is ever called through a nil interface. *)
Theorem Loop_panics_iff_no_handle (l : Listener) (schedule : list ready) :
  (Loop l schedule).2 = Panicked ↔
  is_Some (PacketHandler l) ∧ pcapHandle l = None.
Proof.
  unfold Loop.
  destruct (PacketHandler l) as [to|];
    [|split; [done | by intros [[? [=]] _]]].
  destruct (pcapHandle l) as [h|]; [|split; [by eauto | done]].
  destruct (0 <? Timer l) eqn:Htick; cbn [andb].
  - case_bool_decide as Hth; [split; [done | by intros [_ [=]]]|].
    split; [|by intros [_ [=]]].
    intros Hp. exfalso. revert Hp. apply turns_panics.
    intros _. by destruct (TimerHandler l); [eexists|].
  - split; [|by intros [_ [=]]].
    intros Hp. exfalso. revert Hp. by apply turns_panics.
Qed.

(** X21. Without a packet limit and without a time limit Loop
    returns only when the packet source is closed: a stop event is
    ignored unless [MaxTime] is positive. *)
Theorem Loop_returns_at_end_of_source (l : Listener)
    (schedule : list ready) :
  MaxPkts l ≤ 0 → MaxTime l ≤ 0 →
  (Loop l schedule).2 = Returned →
  Packet None ∈ schedule.
Proof.
  intros Hpk Htime. unfold Loop.
  destruct (PacketHandler l) as [to|]; [|done].
  destruct (pcapHandle l) as [h|]; [|done].
  destruct ((0 <? Timer l) && bool_decide (TimerHandler l = None));
    [done|].
  apply turns_return; [exact Hpk|]. apply Z.ltb_ge. lia.
Qed.


Lemma Loop_respects_MaxPkts_witness :
  Z.of_nat (length (omap handled (Loop opened three_packets).1)) ≤ 2 ∧
  (Z.of_nat (length (omap handled (Loop opened three_packets).1)) = 2 →
   (Loop opened three_packets).2 = Returned).
Proof.
  apply (Loop_respects_MaxPkts opened three_packets).
  - reflexivity.
  - split; [discriminate | reflexivity].
Defined.

Lemma Loop_returns_at_end_of_source_witness :
  Packet None ∈ [Packet (Some [1]); Stop; Packet None].
Proof.
  apply (Loop_returns_at_end_of_source unlimited
           [Packet (Some [1]); Stop; Packet None]).
  - discriminate.
  - discriminate.
  - reflexivity.
Defined.

(** ** Prepare *)

Ltac prepare_cases :=
  unfold Prepare, getFirstPcapInterface, then_;
  repeat first [case_decide | case_match]; simplify_eq.

Section PrepareFacts.
Context `{!Library}.

(** X23. A listener with a file name reads the file: Prepare
    opens it with [OpenOffline], never looks for interfaces and
    never opens a device, whatever [Device], [Snaplen], [Promisc]
    and [Timeout] say, and it leaves [Device] as it was. *)
Theorem Prepare_prefers_file (l : Listener) :
  File l ≠ EmptyString →
  ∃ trace',
    trace_of (Prepare l) = CallOpenOffline (File l) :: trace' ∧
    Forall (λ e,
        match e with
        | CallSetBPFFilter _ filter => filter = Filter l
        | CallPrintf _ => True
        | _ => False
        end) trace' ∧
    ∀ l' trace, Prepare l = Done l' trace → Device l' = Device l.
Proof.
  intros Hfile. prepare_cases; cbn [trace_of app].
  all: eexists; split; [reflexivity|]; split; [by repeat constructor|].
  all: intros l' trace [= <- <-]; reflexivity.
Qed.


(** X25. When Prepare opens a device, it is the listener's device
    or, if that is empty, the first interface [FindAllDevs]
    found; the snapshot length is [Snaplen] cut to 32 bits; and
    the timeout is [Timeout] if that is positive and
    [BlockForever] otherwise, so a zero or negative timeout
    blocks forever. *)
Theorem Prepare_opens_device (l : Listener) (device : string)
    (snaplen timeout : Z) (promisc : bool) :
  CallOpenLive device snaplen promisc timeout ∈ trace_of (Prepare l) →
  File l = EmptyString ∧
  (Device l ≠ EmptyString ∧ device = Device l ∨
   Device l = EmptyString ∧ ∃ rest, FindAllDevs = inl (device :: rest)) ∧
  snaplen = int32 (Snaplen l) ∧ - 2 ^ 31 ≤ snaplen < 2 ^ 31 ∧
  promisc = Promisc l ∧
  timeout = (if 0 <? Timeout l then Timeout l else BlockForever).
Proof.
  assert (Hr : ∀ z, - 2 ^ 31 ≤ int32 z < 2 ^ 31).
  { intros z. unfold int32.
    pose proof (Z.mod_pos_bound (z + 2 ^ 31) (2 ^ 32) ltac:(lia)). lia. }
  prepare_cases; cbn [trace_of app].
  all: rewrite ?elem_of_cons, ?elem_of_nil.
  all: intros Hin; destruct_or?; simplify_eq.
  all: cbn [Device with_Device Snaplen Promisc Timeout File].
  all: repeat split; eauto; apply Hr.
Qed.

(** X26. A listener that Prepare has opened has its handle; with
    a packet handler, and a timer handler if the timer is used,
    Loop on it neither panics nor ends the process: it returns,
    or goes on waiting. *)
Theorem Prepare_then_Loop (l l' : Listener) (trace : list event)
    (schedule : list ready) :
  Prepare l = Done l' trace →
  is_Some (PacketHandler l) →
  (0 < Timer l → is_Some (TimerHandler l)) →
  is_Some (pcapHandle l') ∧
  ((Loop l' schedule).2 = Returned ∨ (Loop l' schedule).2 = Waiting).
Proof.
  intros Hprep [to Hto] Hth.
  assert (∃ h d, l' = with_pcapHandle (Some h) (with_Device d l))
    as (h & d & ->).
  { revert Hprep. clear. destruct l. prepare_cases.
    all: intros [= <-]; by eexists _, _. }
  split; [by eexists|].
  unfold Loop. cbn [PacketHandler pcapHandle Timer TimerHandler MaxTime
                    with_pcapHandle with_Device].
  rewrite Hto.
  assert ((0 <? Timer l) && bool_decide (TimerHandler l = None) = false)
    as ->.
  { destruct (0 <? Timer l) eqn:Ht; [|done]. cbn [andb].
    apply Z.ltb_lt in Ht. destruct (Hth Ht) as [th ->].
    by apply bool_decide_eq_false. }
  apply turns_status. cbn [TimerHandler with_pcapHandle with_Device].
  intros Ht. apply Hth. by apply Z.ltb_lt.
Qed.
End PrepareFacts.

Lemma Prepare_prefers_file_witness :
  ∃ trace',
    trace_of (@Prepare demo_library on_file)
      = CallOpenOffline "dump.pcap" :: trace' ∧
    Forall (λ e,
        match e with
        | CallSetBPFFilter _ filter => filter = "tcp"
        | CallPrintf _ => True
        | _ => False
        end) trace' ∧
    ∀ l' trace,
      @Prepare demo_library on_file = Done l' trace → Device l' = "eth1".
Proof. apply (@Prepare_prefers_file demo_library on_file). discriminate. Defined.


Lemma Prepare_opens_device_witness :
  File on_device = EmptyString ∧
  (Device on_device ≠ EmptyString ∧ "eth0" = Device on_device ∨
   Device on_device = EmptyString ∧
   ∃ rest, @FindAllDevs demo_library = inl ("eth0" :: rest)) ∧
  1500 = int32 (Snaplen on_device) ∧ - 2 ^ 31 ≤ 1500 < 2 ^ 31 ∧
  true = Promisc on_device ∧
  -10000000 =
    (if 0 <? Timeout on_device then Timeout on_device
     else @BlockForever demo_library).
Proof.
  apply (@Prepare_opens_device demo_library on_device "eth0" 1500
           (-10000000) true).
  apply (list_elem_of_lookup_2 _ 1%nat). vm_compute. reflexivity.
Defined.

Lemma Prepare_then_Loop_witness :
  is_Some (pcapHandle opened) ∧
  ((Loop opened three_packets).2 = Returned ∨
   (Loop opened three_packets).2 = Waiting).
Proof.
  apply (@Prepare_then_Loop demo_library on_file opened
           (trace_of (@Prepare demo_library on_file)) three_packets).
  - vm_compute. reflexivity.
  - by eexists.
  - intros Ht. discriminate Ht.
Defined.
End PcapFacts.
